(** * add_watermark.py: stamping a "PREPRINT" overlay on every page of a PDF

    A shallow embedding of [scripts/add_watermark.py] and the properties
    its specification states about it.

    The script drives two external libraries: reportlab (a canvas that
    records drawing operators for a page) and PyPDF2/pypdf (reading a
    document into page objects, merging one page into another, writing a
    document).  The canvas is modelled operator by operator, with the PDF
    graphics-state semantics of those operators given separately by
    [render]; what the libraries compute from bytes, fonts and pages is an
    interface ([Backend]) whose operations may fail with an exception.

    Numbers that Python holds as floats (page dimensions, angle, opacity)
    are exact rationals here: the script only passes them through or
    halves them. *)

From Stdlib Require Import QArith Reals Lra.
From stdpp Require Import gmap strings list fin_maps.

#[local] Open Scope string_scope.
#[local] Open Scope list_scope.

(** ** Values shared by both libraries *)

(** An exception is identified with the text [str(e)] that the script
    prints.  Every exception modelled is a subclass of [Exception]. *)
Definition exn : Type := string.

(** [bytes] objects and file contents. *)
Definition bytes : Type := list Byte.byte.

Inductive result (A : Type) : Type :=
| Ok (a : A)
| Raise (e : exn).
Arguments Ok {A} a.
Arguments Raise {A} e.

#[global] Instance result_ret : MRet result := @Ok.
#[global] Instance result_bind : MBind result :=
  λ A C k r, match r with Ok a => k a | Raise e => Raise e end.

(** ** reportlab: colours, the operators a canvas records *)

(** [reportlab.lib.colors]: the default fill colour and the imported [gray]. *)
Inductive color : Type := black | gray.

(** A change of coordinates: what [translate] and [rotate] concatenate to
    the current transformation matrix (angles in degrees). *)
Inductive xform : Type :=
| Translate (dx dy : Q)
| Rotate (theta : Q).

(** Content-stream operators, as the canvas appends them to the page.  A
    string is shown as runs of (font, characters): the current font for
    what it can encode, substitution fonts for the rest. *)
Inductive op : Type :=
| OpSave                                     (* q *)
| OpRestore                                  (* Q *)
| OpConcat (t : xform)                       (* cm *)
| OpFont (name : string) (size : Q)          (* Tf *)
| OpFill (c : color) (alpha : Q)             (* rg + gs *)
| OpCentredText (x y : Q) (runs : list (string * string)).
                                             (* BT .. Tj ET, centred on x *)

(** A finished canvas page: its size and its operators. *)
Record cpage : Type := mkCpage { cp_size : Q * Q; cp_code : list op }.

(** ** What a page's operators draw *)


(** A piece of text as it ends up on the page. *)
Record mark : Type := mkMark {
  m_text : string;
  m_font : string;
  m_size : Q;
  m_fill : color;
  m_alpha : Q;
  m_ctm : list xform;     (* user space of the text, relative to the page *)
  m_anchor : Q * Q        (* user-space point the string is centred on *)
}.








(** ** What the libraries compute *)

(** The import block of the script binds [PdfReader] and [PdfWriter] to
    one of two interchangeable libraries.  The development is stated over
    whichever was imported, and over reportlab: what they make of bytes,
    pages and fonts is theirs, and each step may raise.  [A4] is the page
    size imported from [reportlab.lib.pagesizes]. *)
Class Backend : Type := mkBackend {
  page : Type;
  A4 : Q * Q;
  (* reportlab: how a string is shown in a font, as runs of
     (font, characters); one run in the font itself when the font encodes
     the whole string *)
  unicode2T1 : string → string → list (string * string);
  (* reportlab: the bytes [Canvas.save] leaves in the output stream; they
     depend on when the document is saved (dates, identifiers) *)
  canvas_save : nat → list cpage → result bytes;
  (* PdfReader: the pages of a byte stream, or the error met reading them *)
  pdf_parse : bytes → result (list page);
  (* PdfReader: whether that error is met only when the pages are first
     asked for, not when the reader is built *)
  pdf_deferred : bytes → bool;
  (* PageObject.merge_page: the receiver's new contents *)
  pdf_merge : page → page → result page;
  (* PdfWriter.write: the bytes written, and the error if it stopped early *)
  pdf_write : list page → bytes * option exn;
  (* what a page object draws: its size and its text *)
  page_size : page → Q * Q;
  page_text : page → list mark
}.

(** ** reportlab: the canvas *)

Module canvas.
Section Canvas.
Context `{B : Backend}.

Record Canvas : Type := mkCanvas {
  pagesize : Q * Q;
  fontname : string;
  fontsize : Q;
  state_stack : list (string * Q);   (* what [saveState] keeps of the font *)
  code : list op;                    (* operators of the page being drawn *)
  shown : list cpage                 (* pages already completed *)
}.

Definition new (pagesize : Q * Q) : Canvas :=
  {| pagesize := pagesize; fontname := "Helvetica"; fontsize := 12;
     state_stack := []; code := []; shown := [] |}.

Definition emit (o : op) (can : Canvas) : Canvas :=
  mkCanvas (pagesize can) (fontname can) (fontsize can) (state_stack can)
           (code can ++ [o]) (shown can).

Definition setFont (name : string) (size : Q) (can : Canvas) : result Canvas :=
  Ok (mkCanvas (pagesize can) name size (state_stack can)
               (code can ++ [OpFont name size]) (shown can)).

(** [setFillColor(colour, alpha)] refuses an opacity outside [0, 1]. *)
Definition setFillColor (c : color) (alpha : Q) (can : Canvas) : result Canvas :=
  if Qle_bool 0 alpha && Qle_bool alpha 1
  then Ok (emit (OpFill c alpha) can)
  else Raise "setFillAlpha invalid value".

Definition saveState (can : Canvas) : result Canvas :=
  Ok (mkCanvas (pagesize can) (fontname can) (fontsize can)
               ((fontname can, fontsize can) :: state_stack can)
               (code can ++ [OpSave]) (shown can)).

Definition restoreState (can : Canvas) : result Canvas :=
  match state_stack can with
  | [] => Raise "pop from empty list"
  | (name, size) :: stack =>
      Ok (mkCanvas (pagesize can) name size stack
                   (code can ++ [OpRestore]) (shown can))
  end.

Definition translate (dx dy : Q) (can : Canvas) : result Canvas :=
  Ok (emit (OpConcat (Translate dx dy)) can).
Definition rotate (theta : Q) (can : Canvas) : result Canvas :=
  Ok (emit (OpConcat (Rotate theta)) can).

(** [drawCentredString]: the string goes to the page as the runs the
    current font and its substitution fonts make of it. *)
Definition drawCentredString (x y : Q) (text : string) (can : Canvas)
  : result Canvas :=
  Ok (emit (OpCentredText x y (unicode2T1 (fontname can) text)) can).

Definition showPage (can : Canvas) : Canvas :=
  mkCanvas (pagesize can) (fontname can) (fontsize can) (state_stack can)
           [] (shown can ++ [mkCpage (pagesize can) (code can)]).

(** [save] closes the page under construction if anything was drawn on
    it; the document is then handed to the output stream. *)
Definition save (can : Canvas) : list cpage :=
  shown (match code can with [] => can | _ :: _ => showPage can end).

End Canvas.
End canvas.

(** Page objects live in a store and are handled by reference. *)
Abbreviation ref := nat (only parsing).

(** The argument of [PdfReader]: a file name or an in-memory stream. *)
Inductive source : Type :=
| Path (path : string)
| Stream (packet : bytes).

(** The external calls a run makes, in the order it makes them. *)
Inductive event : Type :=
| EExists (path : string)                          (* os.path.exists *)
| EOpenRead (path : string)                        (* PdfReader(path) *)
| EGenerate (text : string) (angle opacity : Q)    (* create_watermark *)
| EMerge (target overlay : ref)                    (* merge_page *)
| EOpenWrite (path : string)                       (* open(path, 'wb') *)
| ESerialize (path : string).                      (* writer.write *)

(** A reader: its page objects, and the error that asking for them
    raises when the document could not be read to the end. *)
Record PdfReaderObj : Type := mkReader {
  pages : list ref;
  deferred : option exn
}.

(** Whether every character of a line is ASCII. *)
Fixpoint is_ascii (line : string) : bool :=
  match line with
  | EmptyString => true
  | String c rest => (Ascii.nat_of_ascii c <? 128)%nat && is_ascii rest
  end.

(** ** The import block *)

(** The names [from module import name] can find when the script starts. *)
Definition from_import (env : gset (string * string)) (modname : string)
    (names : list string) : bool :=
  forallb (λ name, bool_decide ((modname, name) ∈ env)) names.

(** The imports both [try] suites make after the PDF library's. *)
Definition shared_imports : list (string * list string) :=
  [("reportlab.pdfgen", ["canvas"]);
   ("reportlab.lib.pagesizes", ["letter"; "A4"]);
   ("reportlab.lib.colors", ["gray"]);
   ("reportlab.lib.utils", ["ImageReader"]);
   ("io", ["BytesIO"])].

(** One [try] suite: it runs to its end unless an import raises
    [ImportError]. *)
Definition import_suite (lib : string) : list (string * list string) :=
  (lib, ["PdfReader"; "PdfWriter"]) :: shared_imports.

Definition try_suite (env : gset (string * string)) (lib : string) : bool :=
  forallb (λ stmt, from_import env stmt.1 stmt.2) (import_suite lib).

Inductive library : Type := PyPDF2 | pypdf.

(** The library [PdfReader] and [PdfWriter] are bound to, or [None] when
    the inner [except ImportError] is reached. *)
Definition import_block (env : gset (string * string)) : option library :=
  if try_suite env "PyPDF2" then Some PyPDF2
  else if try_suite env "pypdf" then Some pypdf
  else None.

Definition import_error : string :=
  "Error: Need PyPDF2/pypdf and reportlab. Install with: pip install PyPDF2 reportlab".

Section Program.
Context `{B : Backend}.

Record World : Type := mkWorld {
  fs : gmap string bytes;      (* the regular files, by path *)
  denied : gmap string exn;    (* paths [open(_, 'wb')] refuses, with the error *)
  stdout_rejects : string → option exn;
                               (* the error of writing a line that standard
                                  output cannot encode *)
  clock : nat;                 (* the time, as far as saved documents show it *)
  heap : list page;            (* page objects, by reference *)
  stdout : list string;        (* the lines printed *)
  log : list event
}.

Definition with_fs (f : gmap string bytes) (w : World) : World :=
  mkWorld f (denied w) (stdout_rejects w) (clock w) (heap w) (stdout w) (log w).
Definition with_heap (h : list page) (w : World) : World :=
  mkWorld (fs w) (denied w) (stdout_rejects w) (clock w) h (stdout w) (log w).
Definition emit_line (s : string) (w : World) : World :=
  mkWorld (fs w) (denied w) (stdout_rejects w) (clock w) (heap w)
          (stdout w ++ [s]) (log w).
Definition record (e : event) (w : World) : World :=
  mkWorld (fs w) (denied w) (stdout_rejects w) (clock w) (heap w) (stdout w)
          (log w ++ [e]).
Definition tick (w : World) : World :=
  mkWorld (fs w) (denied w) (stdout_rejects w) (S (clock w)) (heap w) (stdout w)
          (log w).

(** Computations that read and change the world and may raise. *)
Definition M (A : Type) : Type := World → result A * World.

Definition ret {A} (a : A) : M A := λ w, (Ok a, w).
Definition raise {A} (e : exn) : M A := λ w, (Raise e, w).
Definition bind {A C} (m : M A) (k : A → M C) : M C :=
  λ w, match m w with
       | (Ok a, w') => k a w'
       | (Raise e, w') => (Raise e, w')
       end.

#[global] Instance M_ret : MRet M := @ret.
#[global] Instance M_bind : MBind M := λ A C k m, bind m k.

Definition trace (e : event) : M unit := λ w, (Ok tt, record e w).
Definition lift {A} (r : result A) : M A := λ w, (r, w).

(** *** Built-ins and library calls *)

(** The error of writing [line] to standard output, if any: an ASCII
    line is always taken. *)
Definition refusal (w : World) (line : string) : option exn :=
  if is_ascii line then None else stdout_rejects w line.

(** [print(line)]: when standard output cannot encode the line, nothing
    is written and the encoding error is raised. *)
Definition print (line : string) : M unit :=
  λ w,
  match refusal w line with
  | None => (Ok tt, emit_line line w)
  | Some e => (Raise e, w)
  end.

Definition FileNotFoundError (path : string) : exn :=
  "[Errno 2] No such file or directory: '" +:+ path +:+ "'".
Definition IndexError : exn := "sequence index out of range".
Definition ReferenceError : exn := "page object no longer exists".

Definition os_path_exists (path : string) : M bool :=
  λ w, (Ok (bool_decide (is_Some (fs w !! path))), record (EExists path) w).

(** [seq[i]] *)
Definition getitem (l : list ref) (i : nat) : M ref :=
  match l !! i with
  | Some r => ret r
  | None => raise IndexError
  end.

(** New page objects, one per parsed page, in document order. *)
Definition alloc (ps : list page) : M (list ref) :=
  λ w, (Ok (seq (length (heap w)) (length ps)), with_heap (heap w ++ ps) w).

Definition read_bytes (src : source) : M bytes :=
  match src with
  | Stream packet => ret packet
  | Path path =>
      trace (EOpenRead path);;
      ((λ w, match fs w !! path with
             | Some data => (Ok data, w)
             | None => (Raise (FileNotFoundError path), w)
             end) : M bytes)
  end.

(** [PdfReader(src)]: an error in the document is raised here, or kept
    for the first time the pages are asked for. *)
Definition PdfReader (src : source) : M PdfReaderObj :=
  data ← read_bytes src;
  match pdf_parse data with
  | Ok ps => refs ← alloc ps; ret (mkReader refs None)
  | Raise e =>
      if pdf_deferred data then ret (mkReader [] (Some e)) else raise e
  end.

(** [reader.pages] *)
Definition get_pages (reader : PdfReaderObj) : M (list ref) :=
  match deferred reader with
  | None => ret (pages reader)
  | Some e => raise e
  end.

(** [page.merge_page(overlay)]: the receiver is changed in place, the
    overlay is only read. *)
Definition merge_page (target overlay : ref) : M unit :=
  trace (EMerge target overlay);;
  ((λ w, match heap w !! target, heap w !! overlay with
         | Some p, Some o =>
             match pdf_merge p o with
             | Ok p' => (Ok tt, with_heap (<[target := p']> (heap w)) w)
             | Raise e => (Raise e, w)
             end
         | _, _ => (Raise ReferenceError, w)
         end) : M unit).

(** A [PdfWriter] holds the page objects added to it, in order. *)
Definition PdfWriter : list ref := [].
Definition add_page (writer : list ref) (p : ref) : list ref := writer ++ [p].

(** [open(path, 'wb')]: creates the file or truncates it. *)
Definition open_wb (path : string) : M unit :=
  trace (EOpenWrite path);;
  ((λ w, match denied w !! path with
         | Some e => (Raise e, w)
         | None => (Ok tt, with_fs (<[path := []]> (fs w)) w)
         end) : M unit).

(** [writer.write(output_file)], the file being the one opened at [path]. *)
Definition write (writer : list ref) (path : string) : M unit :=
  trace (ESerialize path);;
  ((λ w, match mapM (λ r, heap w !! r) writer with
         | None => (Raise ReferenceError, w)
         | Some ps =>
             let w' := with_fs (<[path := (pdf_write ps).1]> (fs w)) w in
             match (pdf_write ps).2 with
             | None => (Ok tt, w')
             | Some e => (Raise e, w')
             end
         end) : M unit).

(** [can.save()]: the bytes carry the time of the call. *)
Definition save_canvas (can : canvas.Canvas) : M bytes :=
  λ w, (canvas_save (clock w) (canvas.save can), tick w).

(** *** The script *)

(** [create_watermark]: the canvas as it is when it is saved. *)
Definition watermark_canvas (text : string) (angle opacity : Q)
  : result canvas.Canvas :=
  let can := canvas.new A4 in
  can ← canvas.setFont "Helvetica-Bold" 60 can;
  can ← canvas.setFillColor gray opacity can;
  let '(width, height) := A4 in
  can ← canvas.saveState can;
  can ← canvas.translate (width / 2) (height / 2) can;
  can ← canvas.rotate angle can;
  can ← canvas.drawCentredString 0 0 text can;
  can ← canvas.restoreState can;
  mret can.

(** [def create_watermark(text="PREPRINT", angle=45, opacity=0.3)]; an
    argument left out is [None]. *)
Definition create_watermark (text : option string) (angle opacity : option Q)
  : M PdfReaderObj :=
  let text := default "PREPRINT" text in
  let angle := default 45%Q angle in
  let opacity := default (3 # 10)%Q opacity in
  trace (EGenerate text angle opacity);;
  can ← lift (watermark_canvas text angle opacity);
  packet ← save_canvas can;
  PdfReader (Stream packet).

(** [for page in ...: page.merge_page(watermark_page);
    writer.add_page(page)] *)
Fixpoint merge_loop (watermark_page : ref) (todo : list ref) (writer : list ref)
  : M (list ref) :=
  match todo with
  | [] => ret writer
  | p :: todo' =>
      merge_page p watermark_page;;
      merge_loop watermark_page todo' (add_page writer p)
  end.

(** The body of the [try] block of [add_watermark]. *)
Definition add_watermark_try (input_pdf output_pdf : string) (watermark_text : string)
  : M bool :=
  reader ← PdfReader (Path input_pdf);
  let writer := PdfWriter in
  watermark ← create_watermark (Some watermark_text) None None;
  watermark_pages ← get_pages watermark;
  watermark_page ← getitem watermark_pages 0;
  todo ← get_pages reader;
  writer ← merge_loop watermark_page todo writer;
  open_wb output_pdf;;
  write writer output_pdf;;
  print ("✅ Successfully added watermark to " +:+ output_pdf);;
  ret true.

(** [def add_watermark(input_pdf, output_pdf, watermark_text="PREPRINT")]:
    the [except Exception] clause prints the error and returns [False];
    an exception raised by that [print] leaves the function. *)
Definition add_watermark (input_pdf output_pdf : string) (watermark_text : option string)
  : M bool :=
  λ w,
  let watermark_text := default "PREPRINT" watermark_text in
  match add_watermark_try input_pdf output_pdf watermark_text w with
  | (Ok success, w') => (Ok success, w')
  | (Raise e, w') =>
      (print ("❌ Error processing " +:+ input_pdf +:+ ": " +:+ e);;
       ret false) w'
  end.

Definition usage : string :=
  "Usage: python3 add_watermark.py <input_pdf> <output_pdf>".

(** An exception nothing catches ends the process with status 1; its
    traceback goes to standard error, not to standard output. *)
Definition uncaught (e : exn) (w : World) : Z * World := (1%Z, w).

(** [print(line); sys.exit(1)] *)
Definition print_and_exit (line : string) (w : World) : Z * World :=
  match print line w with
  | (Ok _, w) => (1%Z, w)
  | (Raise e, w) => uncaught e w
  end.

(** The [__main__] block; the result is the exit status. *)
Definition main (argv : list string) : World → Z * World :=
  λ w,
  if (length argv <? 3)%nat then print_and_exit usage w
  else
    let input_pdf := argv !!! 1%nat in
    let output_pdf := argv !!! 2%nat in
    match os_path_exists input_pdf w with
    | (Ok true, w) =>
        match add_watermark input_pdf output_pdf None w with
        | (Ok success, w) => ((if success then 0 else 1)%Z, w)
        | (Raise e, w) => uncaught e w
        end
    | (_, w) =>
        print_and_exit ("❌ Error: Input file " +:+ input_pdf +:+ " not found") w
    end.

(** The whole script: the import block, then the [__main__] block over
    the library the import block has bound. *)
Definition script (env : gset (string * string)) (argv : list string)
  : World → Z * World :=
  λ w,
  match import_block env with
  | None => print_and_exit import_error w
  | Some _ => main argv w
  end.

End Program.

(** ** What a run is expected to compute *)

(** The specification speaks of the input's pages, of the one watermark
    page and of the failures of each processing step.  These definitions
    say it in terms of the library alone; the theorems relate them to the
    script. *)
Section Outcome.
Context `{B : Backend}.

(** The document the generator hands to [save]. *)
Definition watermark_document (text : string) (angle opacity : Q)
  : result (list cpage) :=
  can ← watermark_canvas text angle opacity; mret (canvas.save can).

(** The contents of the watermark page: the first page read back from
    what the canvas saved at time [stamp]. *)
Definition watermark_object (stamp : nat) (text : string) (angle opacity : Q)
  : result page :=
  match watermark_document text angle opacity with
  | Raise e => Raise e
  | Ok doc =>
      match canvas_save stamp doc with
      | Raise e => Raise e
      | Ok packet =>
          match pdf_parse packet with
          | Raise e => Raise e
          | Ok [] => Raise IndexError
          | Ok (o :: _) => Ok o
          end
      end
  end.

(** Every page with the overlay merged into it, in order; the first
    merge that fails decides the error. *)
Fixpoint stamp_all (o : page) (ps : list page) : result (list page) :=
  match ps with
  | [] => Ok []
  | p :: ps =>
      match pdf_merge p o with
      | Raise e => Raise e
      | Ok p' =>
          match stamp_all o ps with
          | Raise e => Raise e
          | Ok ps' => Ok (p' :: ps')
          end
      end
  end.

Inductive stage : Type := Parse | Generate | Merge | Serialize.

(** The processing step that fails when [input_pdf] is watermarked into
    [output_pdf], and the exception it raises; [None] if every step
    succeeds.  An error of the input that the reader keeps for later is
    raised after the watermark is generated. *)
Definition failure (input_pdf output_pdf text : string) (w : World)
  : option (stage * exn) :=
  match fs w !! input_pdf with
  | None => Some (Parse, FileNotFoundError input_pdf)
  | Some data =>
      match pdf_parse data, pdf_deferred data with
      | Raise e, false => Some (Parse, e)
      | parsed, _ =>
          match watermark_object (clock w) text 45 (3 # 10) with
          | Raise e => Some (Generate, e)
          | Ok o =>
              match parsed with
              | Raise e => Some (Parse, e)
              | Ok ps =>
                  match stamp_all o ps with
                  | Raise e => Some (Merge, e)
                  | Ok ps' =>
                      match denied w !! output_pdf with
                      | Some e => Some (Serialize, e)
                      | None =>
                          match (pdf_write ps').2 with
                          | Some e => Some (Serialize, e)
                          | None => None
                          end
                      end
                  end
              end
          end
      end
  end.

(** Standard output takes the line. *)
Definition accepts (w : World) (line : string) : Prop := refusal w line = None.



Definition is_generate (e : event) : bool :=
  match e with EGenerate _ _ _ => true | _ => false end.
Definition is_open_write (e : event) : bool :=
  match e with EOpenWrite _ => true | _ => false end.
Definition overlay_of (e : event) : option ref :=
  match e with EMerge _ o => Some o | _ => None end.

(** The external calls a run on these two paths with this text may
    make. *)
Definition permitted (input_pdf output_pdf text : string) (ev : event) : Prop :=
  match ev with
  | EExists path | EOpenRead path => path = input_pdf
  | EOpenWrite path | ESerialize path => path = output_pdf
  | EGenerate t a o => t = text ∧ a = 45%Q ∧ o = (3 # 10)%Q
  | EMerge _ _ => True
  end.

(** [w'] is [w] after calls that were all permitted and that changed no
    file other than [output_pdf]. *)
Definition confined (input_pdf output_pdf text : string) (w w' : World) : Prop :=
  denied w' = denied w ∧
  (∀ path, path ≠ output_pdf → fs w' !! path = fs w !! path) ∧
  ∃ evs, log w' = log w ++ evs ∧ Forall (permitted input_pdf output_pdf text) evs.

End Outcome.

(** ** A small backend to run the script on *)

(** A document is its pages, each ended by a line feed, and what follows
    the last line feed is ignored; a saved canvas puts its time there.
    Merging appends the overlay to the page; a page that holds an
    exclamation mark cannot be merged into; an empty file is not a
    document, and one that starts with a question mark shows its error
    only when its pages are asked for.  Only ASCII is in a font. *)
Module demo.

Definition LF : Byte.byte := Byte.x0a.

Fixpoint split_pages (data : bytes) (current : list Byte.byte)
  : list (list Byte.byte) :=
  match data with
  | [] => []
  | b :: rest =>
      if Byte.eqb b LF then current :: split_pages rest []
      else split_pages rest (current ++ [b])
  end.

Definition parse (data : bytes) : result (list (list Byte.byte)) :=
  match data with
  | [] => Raise "Cannot read an empty file"
  | b :: _ =>
      if Byte.eqb b Byte.x3f then Raise "Could not read the page tree"
      else Ok (split_pages data [])
  end.

Definition late (data : bytes) : bool :=
  match data with
  | b :: _ => Byte.eqb b Byte.x3f
  | [] => false
  end.

Definition merge (p o : list Byte.byte) : result (list Byte.byte) :=
  if existsb (Byte.eqb Byte.x21) p then Raise "cannot merge into this page"
  else Ok (p ++ o).

Definition serialize (ps : list (list Byte.byte)) : bytes :=
  concat (map (λ p, p ++ [LF]) ps).

Definition runs (font text : string) : list (string * string) :=
  if is_ascii text then [(font, text)] else [("ZapfDingbats", text)].

Definition paper : Q * Q := (75600 # 127, 106920 # 127)%Q.

(** The text of the default watermark. *)
Definition stamp_text : list mark :=
  [mkMark "PREPRINT" "Helvetica-Bold" 60 gray (3 # 10)
          [Translate (paper.1 / 2) (paper.2 / 2); Rotate 45] (0, 0)%Q].

Definition text_of (p : list Byte.byte) : list mark :=
  match p with
  | [b] => if Byte.eqb b Byte.x57 then stamp_text else []
  | _ => []
  end.

#[local] Instance backend : Backend := {|
  page := list Byte.byte;
  A4 := paper;
  unicode2T1 := runs;
  canvas_save stamp doc :=
    Ok (serialize (map (λ _, [Byte.x57]) doc) ++ replicate stamp Byte.x20);
  pdf_parse := parse;
  pdf_deferred := late;
  pdf_merge := merge;
  pdf_write ps := (serialize ps, None);
  page_size _ := paper;
  page_text := text_of
|}.

(** [in.pdf] has the pages a, b, c; the second page of [bad.pdf] cannot
    be merged into; [late.pdf] shows its error late. *)
Definition world : World := {|
  fs := <["in.pdf" := [Byte.x61; LF; Byte.x62; LF; Byte.x63; LF]]>
          (<["bad.pdf" := [Byte.x61; LF; Byte.x21; LF]]>
             (<["late.pdf" := [Byte.x3f; LF]]>
                (<["empty.pdf" := []]> ∅)));
  denied := <["/locked.pdf" := "[Errno 13] Permission denied: '/locked.pdf'"]> ∅;
  stdout_rejects _ := None;
  clock := 0;
  heap := [];
  stdout := [];
  log := []
|}.

(** The demo world on a terminal that takes ASCII only. *)
Definition codec_error : exn :=
  "'ascii' codec can't encode character: ordinal not in range(128)".

Definition ascii_world : World :=
  mkWorld (fs world) (denied world) (λ _, Some codec_error) (clock world)
          (heap world) (stdout world) (log world).

(** The demo world with one more file, a document without pages. *)
Definition world_blank : World :=
  with_fs (<["blank.pdf" := [Byte.x20]]> (fs world)) world.

(** The same library with a writer that stops after two bytes. *)
Definition flaky : Backend := {|
  page := list Byte.byte;
  A4 := paper;
  unicode2T1 := runs;
  canvas_save stamp doc :=
    Ok (serialize (map (λ _, [Byte.x57]) doc) ++ replicate stamp Byte.x20);
  pdf_parse := parse;
  pdf_deferred := late;
  pdf_merge := merge;
  pdf_write ps := (take 2 (serialize ps), Some "[Errno 28] No space left on device");
  page_size _ := paper;
  page_text := text_of
|}.

Definition flaky_world : @World flaky := {|
  fs := <["in.pdf" := [Byte.x61; LF; Byte.x62; LF; Byte.x63; LF]]> ∅;
  denied := ∅;
  stdout_rejects _ := None;
  clock := 0;
  heap := [];
  stdout := [];
  log := []
|}.

(** An installation with reportlab and pypdf, without PyPDF2. *)
Definition pypdf_env : gset (string * string) :=
  list_to_set
    [("pypdf", "PdfReader"); ("pypdf", "PdfWriter");
     ("reportlab.pdfgen", "canvas");
     ("reportlab.lib.pagesizes", "letter"); ("reportlab.lib.pagesizes", "A4");
     ("reportlab.lib.colors", "gray");
     ("reportlab.lib.utils", "ImageReader");
     ("io", "BytesIO")].

End demo.

(** * Properties *)

Section Properties.
Context `{B : Backend}.

Ltac run :=
  unfold add_watermark_try, create_watermark, PdfReader, read_bytes, alloc,
    get_pages, getitem, open_wb, write, merge_page, os_path_exists, save_canvas,
    trace, lift, mbind, M_bind, bind, mret, M_ret, ret, raise in *;
  simpl in *.

(** ** The store of page objects *)

Lemma heap_read_middle (h1 ps h2 : list page) (i : nat) :
  (i < length ps)%nat →
  (h1 ++ ps ++ h2) !! (length h1 + i)%nat = ps !! i.
Proof.
  intros Hi. rewrite lookup_app_r by lia.
  replace (length h1 + i - length h1)%nat with i by lia.
  by rewrite lookup_app_l.
Qed.

Lemma heap_read_all (h1 ps h2 : list page) :
  mapM (λ r, (h1 ++ ps ++ h2) !! r) (seq (length h1) (length ps)) = Some ps.
Proof.
  apply mapM_Some_2, Forall2_same_length_lookup_2.
  - by rewrite length_seq.
  - intros i r p Hr Hp. apply lookup_seq in Hr as [-> Hi].
    by rewrite heap_read_middle.
Qed.

Lemma heap_outside (h1 ps ps' h2 : list page) (i : nat) :
  length ps' = length ps →
  (i < length h1 ∨ length h1 + length ps ≤ i)%nat →
  (h1 ++ ps' ++ h2) !! i = (h1 ++ ps ++ h2) !! i.
Proof.
  intros Hlen [Hi | Hi].
  - by rewrite !lookup_app_l.
  - rewrite !lookup_app_r by lia. f_equal. lia.
Qed.

(** ** The overlay merged into every page *)

Lemma stamp_all_Forall2 (o : page) (ps ps' : list page) :
  stamp_all o ps = Ok ps' ↔ Forall2 (λ p p', pdf_merge p o = Ok p') ps ps'.
Proof.
  revert ps'. induction ps as [| p ps IH]; intros ps'; simpl.
  - split.
    + intros [= <-]. constructor.
    + intros Hall. by inversion Hall.
  - split.
    + destruct (pdf_merge p o) as [p' |] eqn:Hp; [| done].
      destruct (stamp_all o ps) as [qs |] eqn:Hqs; [| done].
      intros [= <-]. constructor; [done | by apply IH].
    + intros Hall. inversion Hall as [| ? p' ? qs Hp Hqs]; subst.
      rewrite Hp. apply IH in Hqs. by rewrite Hqs.
Qed.

Lemma stamp_all_length (o : page) (ps ps' : list page) :
  stamp_all o ps = Ok ps' → length ps' = length ps.
Proof.
  intros Hall. apply stamp_all_Forall2, Forall2_length in Hall. done.
Qed.

(** ** The merge loop *)

(** Over page objects stored next to each other, with the overlay
    stored elsewhere, the loop computes [stamp_all] in place. *)
Lemma merge_loop_spec (ps : list page) :
  ∀ (h1 h2 : list page) (o : page) (ov : ref) (writer : list ref) (w : World),
    heap w = h1 ++ ps ++ h2 →
    heap w !! ov = Some o →
    (ov < length h1 ∨ length h1 + length ps ≤ ov)%nat →
    let todo := seq (length h1) (length ps) in
    match stamp_all o ps with
    | Ok ps' =>
        merge_loop ov todo writer w =
          (Ok (writer ++ todo),
           mkWorld (fs w) (denied w) (stdout_rejects w) (clock w)
                   (h1 ++ ps' ++ h2) (stdout w)
                   (log w ++ map (λ r, EMerge r ov) todo))
    | Raise e =>
        ∃ (w' : World) (k : nat),
          merge_loop ov todo writer w = (Raise e, w') ∧
          fs w' = fs w ∧ denied w' = denied w ∧
          stdout_rejects w' = stdout_rejects w ∧ stdout w' = stdout w ∧
          log w' = log w ++ map (λ r, EMerge r ov) (take k todo)
    end.
Proof.
  induction ps as [| p ps IH]; intros h1 h2 o ov writer w Hheap Hov Hout todo.
  - subst todo. simpl. rewrite !app_nil_r. simpl in Hheap.
    destruct w; simpl in *. by rewrite Hheap.
  - subst todo. cbn [stamp_all length seq merge_loop].
    assert (heap w !! length h1 = Some p) as Hp.
    { rewrite Hheap. by apply list_lookup_middle. }
    destruct (pdf_merge p o) as [p' | e] eqn:Hmerge.
    + specialize (IH (h1 ++ [p']) h2 o ov (add_page writer (length h1))
                     (with_heap (h1 ++ p' :: ps ++ h2)
                                (record (EMerge (length h1) ov) w))).
      rewrite length_app in IH. simpl in IH.
      replace (length h1 + 1)%nat with (S (length h1)) in IH by lia.
      assert (merge_page (length h1) ov w =
              (Ok tt, with_heap (h1 ++ p' :: ps ++ h2)
                                (record (EMerge (length h1) ov) w))) as Hstep.
      { run. rewrite Hp, Hov, Hmerge. f_equal. f_equal.
        rewrite Hheap.
        replace (length h1) with (length h1 + 0)%nat at 1 by lia.
        by rewrite insert_app_r. }
      unfold mbind, M_bind, bind. rewrite Hstep.
      lapply IH; [clear IH; intros IH | by rewrite <- app_assoc].
      lapply IH; [clear IH; intros IH |].
      2:{ rewrite <- Hov, Hheap.
          apply (heap_outside h1 (p :: ps) (p' :: ps) h2); [done |].
          simpl; simpl in Hout; lia. }
      lapply IH; [clear IH; intros IH | simpl in Hout; lia].
      destruct (stamp_all o ps) as [ps' | e].
      * rewrite IH. unfold add_page. simpl.
        rewrite <- !app_assoc. simpl. done.
      * destruct IH as (w' & k & Hrun & Hfs & Hden & Hrej & Hout' & Hlog).
        exists w', (S k). rewrite Hrun. simpl in *.
        rewrite Hlog, <- app_assoc. done.
    + exists (record (EMerge (length h1) ov) w), 1%nat.
      run. by rewrite Hp, Hov, Hmerge.
Qed.

(** ** Printing *)


Lemma print_refused (line : string) (w : World) (e : exn) :
  refusal w line = Some e → print line w = (Raise e, w).
Proof. unfold print. by intros ->. Qed.

(** ** The [try] block, step by step *)

Lemma PdfReader_path (path : string) (w : World) :
  PdfReader (Path path) w =
    match fs w !! path with
    | None => (Raise (FileNotFoundError path), record (EOpenRead path) w)
    | Some data =>
        match pdf_parse data with
        | Raise e =>
            if pdf_deferred data
            then (Ok (mkReader [] (Some e)), record (EOpenRead path) w)
            else (Raise e, record (EOpenRead path) w)
        | Ok ps =>
            (Ok (mkReader (seq (length (heap w)) (length ps)) None),
             with_heap (heap w ++ ps) (record (EOpenRead path) w))
        end
    end.
Proof.
  run. destruct (fs w !! path) as [data |]; [| done].
  destruct (pdf_parse data); [done |]. by destruct (pdf_deferred data).
Qed.

Lemma create_watermark_run (text : option string) (angle opacity : option Q) (w : World) :
  let t := default "PREPRINT" text in
  let a := default 45%Q angle in
  let o := default (3 # 10)%Q opacity in
  create_watermark text angle opacity w =
    match watermark_document t a o with
    | Raise e => (Raise e, record (EGenerate t a o) w)
    | Ok doc =>
        match canvas_save (clock w) doc with
        | Raise e => (Raise e, tick (record (EGenerate t a o) w))
        | Ok packet =>
            match pdf_parse packet with
            | Raise e =>
                if pdf_deferred packet
                then (Ok (mkReader [] (Some e)), tick (record (EGenerate t a o) w))
                else (Raise e, tick (record (EGenerate t a o) w))
            | Ok os =>
                (Ok (mkReader (seq (length (heap w)) (length os)) None),
                 with_heap (heap w ++ os) (tick (record (EGenerate t a o) w)))
            end
        end
    end.
Proof.
  intros t a o. unfold watermark_document. run. fold t a o.
  destruct (watermark_canvas t a o) as [can |]; [| done]. simpl.
  destruct (canvas_save _ _) as [packet |]; [| done].
  destruct (pdf_parse packet); [done |]. by destruct (pdf_deferred packet).
Qed.

Lemma merges_not_generate (ov : ref) (targets : list ref) :
  filter is_generate (map (λ r, EMerge r ov) targets) = [].
Proof.
  induction targets as [| r targets IH]; [done |].
  simpl. by rewrite filter_cons_False by (simpl; tauto).
Qed.

(** The events of a run that got past reading the input: one call of
    the generator, then merges, then at most the two output events. *)
Lemma generate_once (input_pdf text : string) (ov : ref) (targets : list ref)
    (rest : list event) :
  filter is_generate rest = [] →
  filter is_generate
    (EOpenRead input_pdf :: EGenerate text 45 (3 # 10)
       :: map (λ r, EMerge r ov) targets ++ rest)
  = [EGenerate text 45 (3 # 10)].
Proof.
  intros Hrest.
  rewrite filter_cons_False by (simpl; tauto).
  rewrite filter_cons_True by (simpl; tauto).
  by rewrite filter_app, merges_not_generate, Hrest.
Qed.

Lemma merges_not_open (ov : ref) (targets : list ref) :
  Forall (λ ev, is_open_write ev = false) (map (λ r, EMerge r ov) targets).
Proof. induction targets; constructor; done. Qed.

Lemma merges_overlay (ov : ref) (targets : list ref) :
  Forall (λ ev, ∀ o', overlay_of ev = Some o' → o' = ov)
         (map (λ r, EMerge r ov) targets).
Proof.
  induction targets; constructor; [| done].
  simpl. by intros o' [= <-].
Qed.

Lemma create_watermark_text (text : string) (w : World) :
  create_watermark (Some text) None None w =
    match watermark_document text 45 (3 # 10) with
    | Raise e => (Raise e, record (EGenerate text 45 (3 # 10)) w)
    | Ok doc =>
        match canvas_save (clock w) doc with
        | Raise e => (Raise e, tick (record (EGenerate text 45 (3 # 10)) w))
        | Ok packet =>
            match pdf_parse packet with
            | Raise e =>
                if pdf_deferred packet
                then (Ok (mkReader [] (Some e)),
                      tick (record (EGenerate text 45 (3 # 10)) w))
                else (Raise e, tick (record (EGenerate text 45 (3 # 10)) w))
            | Ok os =>
                (Ok (mkReader (seq (length (heap w)) (length os)) None),
                 with_heap (heap w ++ os)
                           (tick (record (EGenerate text 45 (3 # 10)) w)))
            end
        end
    end.
Proof. apply create_watermark_run. Qed.

Lemma getitem_first (r : ref) (rs : list ref) (w : World) :
  getitem (r :: rs) 0 w = (Ok r, w).
Proof. done. Qed.

(** The generator call, [watermark.pages] and [...[0]], followed by
    whatever comes next. *)
Lemma watermark_phase {A} (text : string) (k : ref → M A) (w : World) :
  let phase :=
    create_watermark (Some text) None None ≫= λ watermark,
    get_pages watermark ≫= λ watermark_pages,
    getitem watermark_pages 0 ≫= k in
  let called := record (EGenerate text 45 (3 # 10)) w in
  match watermark_object (clock w) text 45 (3 # 10) with
  | Ok o =>
      ∃ os : list page,
        phase w = k (length (heap w)) (with_heap (heap w ++ o :: os) (tick called))
  | Raise e =>
      ∃ w' : World,
        phase w = (Raise e, w') ∧
        fs w' = fs w ∧ denied w' = denied w ∧
        stdout_rejects w' = stdout_rejects w ∧ stdout w' = stdout w ∧
        heap w' = heap w ∧
        log w' = log w ++ [EGenerate text 45 (3 # 10)]
  end.
Proof.
  intros phase called. subst phase. unfold watermark_object.
  unfold mbind, M_bind, bind. rewrite create_watermark_text. fold called.
  destruct (watermark_document text 45 (3 # 10)) as [doc | e];
    [| by eexists].
  destruct (canvas_save (clock w) doc) as [packet | e]; [| by eexists].
  destruct (pdf_parse packet) as [[| o os] | e].
  - eexists. split; [reflexivity |]. simpl. by rewrite app_nil_r.
  - exists os. reflexivity.
  - destruct (pdf_deferred packet); by eexists.
Qed.

Ltac same_parse :=
  repeat match goal with
  | H1 : ?x = Ok _, H2 : ?x = Ok _ |- _ => rewrite H1 in H2; injection H2 as <-
  | H1 : ?x = Raise _, H2 : ?x = Ok _ |- _ => by rewrite H1 in H2
  end.

Ltac trace_facts :=
  repeat split; try done; intros; simplify_eq/=; same_parse;
  rewrite <- ?app_assoc; try done; try congruence;
  try (rewrite <- (app_nil_r (map _ _)); by apply generate_once);
  try (by apply generate_once);
  repeat first
    [ apply Forall_cons; split; [by (intros; simplify_eq/=) |]
    | apply Forall_app; split
    | apply Forall_nil_2
    | apply merges_overlay
    | apply merges_not_open ].

(** The whole [try] block: it raises what [failure] predicts, and the
    world it leaves is described by what the library returned. *)
Lemma try_spec (input_pdf output_pdf text : string) (w : World) :
  let line := "✅ Successfully added watermark to " +:+ output_pdf in
  ∃ (w' : World) (evs : list event),
    (add_watermark_try input_pdf output_pdf text w).2 = w' ∧
    denied w' = denied w ∧
    stdout_rejects w' = stdout_rejects w ∧
    log w' = log w ++ evs ∧
    (∀ data ps,
        fs w !! input_pdf = Some data → pdf_parse data = Ok ps →
        filter is_generate evs = [EGenerate text 45 (3 # 10)] ∧
        Forall (λ ev, ∀ o', overlay_of ev = Some o' →
                            o' = (length (heap w) + length ps)%nat) evs) ∧
    match failure input_pdf output_pdf text w with
    | None =>
        ∃ data ps o os ps',
          fs w !! input_pdf = Some data ∧ pdf_parse data = Ok ps ∧
          watermark_object (clock w) text 45 (3 # 10) = Ok o ∧
          stamp_all o ps = Ok ps' ∧
          denied w !! output_pdf = None ∧ (pdf_write ps').2 = None ∧
          fs w' = <[output_pdf := (pdf_write ps').1]> (fs w) ∧
          heap w' = heap w ++ ps' ++ o :: os ∧
          evs = [EOpenRead input_pdf; EGenerate text 45 (3 # 10)]
                ++ map (λ r, EMerge r (length (heap w) + length ps)%nat)
                       (seq (length (heap w)) (length ps))
                ++ [EOpenWrite output_pdf; ESerialize output_pdf] ∧
          (add_watermark_try input_pdf output_pdf text w).1
          = match refusal w line with None => Ok true | Some e => Raise e end ∧
          stdout w'
          = stdout w ++ match refusal w line with None => [line] | Some _ => [] end
    | Some (st, e) =>
        (add_watermark_try input_pdf output_pdf text w).1 = Raise e ∧
        stdout w' = stdout w ∧
        (st ≠ Serialize →
         fs w' = fs w ∧ Forall (λ ev, is_open_write ev = false) evs) ∧
        (∀ path, path ≠ output_pdf → fs w' !! path = fs w !! path)
    end.
Proof.
  intros line.
  destruct (add_watermark_try input_pdf output_pdf text w) as [r wf] eqn:Hrun.
  cbn [fst snd].
  pose (K := λ (reader : PdfReaderObj) (watermark_page : ref),
          get_pages reader ≫= λ todo,
          merge_loop watermark_page todo PdfWriter ≫= λ writer,
          open_wb output_pdf ≫= λ _,
          write writer output_pdf ≫= λ _,
          print line ≫= λ _, (ret true : M bool)).
  change (add_watermark_try input_pdf output_pdf text)
    with (PdfReader (Path input_pdf) ≫= λ reader,
          create_watermark (Some text) None None ≫= λ watermark,
          get_pages watermark ≫= λ watermark_pages,
          getitem watermark_pages 0 ≫= K reader) in Hrun.
  unfold failure.
  unfold mbind at 1, M_bind at 1, bind at 1 in Hrun.
  rewrite PdfReader_path in Hrun.
  destruct (fs w !! input_pdf) as [data |] eqn:Hdata.
  2:{ injection Hrun as <- <-. eexists _, [EOpenRead input_pdf]. trace_facts. }
  set (w1 := record (EOpenRead input_pdf) w) in *.
  destruct (pdf_parse data) as [ps | e] eqn:Hps.
  2:{ destruct (pdf_deferred data) eqn:Hlate.
      2:{ injection Hrun as <- <-. eexists _, [EOpenRead input_pdf].
          trace_facts. }
      pose proof (watermark_phase text (K (mkReader [] (Some e))) w1) as Hphase.
      cbv zeta in Hphase. change (clock w1) with (clock w) in Hphase.
      destruct (watermark_object (clock w) text 45 (3 # 10)) as [o | e'].
      - destruct Hphase as (os & Hphase). rewrite Hphase in Hrun.
        injection Hrun as <- <-.
        eexists _, [EOpenRead input_pdf; EGenerate text 45 (3 # 10)].
        trace_facts.
      - destruct Hphase as (w' & Hphase & Hfs & Hden & Hrej & Hout & _ & Hlog).
        rewrite Hphase in Hrun. injection Hrun as <- <-.
        eexists w', [EOpenRead input_pdf; EGenerate text 45 (3 # 10)].
        rewrite Hlog, Hfs, Hden, Hrej, Hout. subst w1. simpl.
        rewrite <- !app_assoc. trace_facts. }
  set (w2 := with_heap (heap w ++ ps) w1) in *.
  pose proof (watermark_phase text
                (K (mkReader (seq (length (heap w)) (length ps)) None)) w2)
    as Hphase.
  cbv zeta in Hphase. change (clock w2) with (clock w) in Hphase.
  destruct (watermark_object (clock w) text 45 (3 # 10)) as [o | e] eqn:Hobj.
  2:{ destruct Hphase as (w' & Hphase & Hfs & Hden & Hrej & Hout & _ & Hlog).
      rewrite Hphase in Hrun. injection Hrun as <- <-.
      eexists w', [EOpenRead input_pdf; EGenerate text 45 (3 # 10)].
      rewrite Hlog, Hfs, Hden, Hrej, Hout. subst w2 w1. simpl.
      rewrite <- !app_assoc. trace_facts. }
  destruct Hphase as (os & Hphase). rewrite Hphase in Hrun. clear Hphase.
  unfold K at 1 in Hrun. unfold mbind at 1, M_bind at 1, bind at 1 in Hrun.
  unfold get_pages at 1 in Hrun. cbn [deferred pages ret] in Hrun.
  unfold mbind at 1, M_bind at 1, bind at 1 in Hrun.
  set (n := length (heap w)) in *.
  set (ov := length (heap w2)) in *.
  set (w3 := with_heap _ _) in Hrun.
  assert (ov = n + length ps)%nat as Hovn.
  { subst ov w2 n. simpl. by rewrite length_app. }
  assert (heap w3 = heap w ++ ps ++ o :: os) as Hheap.
  { subst w3 w2. simpl. by rewrite <- app_assoc. }
  assert (heap w3 !! ov = Some o) as Hov.
  { rewrite Hheap, app_assoc. apply list_lookup_middle.
    rewrite Hovn. subst n. by rewrite length_app. }
  pose proof (merge_loop_spec ps (heap w) (o :: os) o ov PdfWriter w3 Hheap Hov)
    as Hloop.
  lapply Hloop; [clear Hloop; intros Hloop | right; subst n; lia].
  fold n in Hloop. cbv zeta in Hloop.
  destruct (stamp_all o ps) as [ps' | e] eqn:Hstamp.
  2:{ destruct Hloop as (w' & k & Hloop & Hfs & Hden & Hrej & Hout & Hlog).
      rewrite Hloop in Hrun. injection Hrun as <- <-.
      eexists w', ([EOpenRead input_pdf; EGenerate text 45 (3 # 10)]
                   ++ map (λ r, EMerge r ov) (take k (seq n (length ps)))).
      rewrite Hlog, Hfs, Hden, Hrej, Hout. subst w3 w2 w1. simpl.
      rewrite <- !app_assoc. rewrite Hovn. trace_facts. }
  rewrite Hloop in Hrun. clear Hloop.
  set (merges := map (λ r, EMerge r ov) (seq n (length ps))) in *.
  pose proof (stamp_all_length _ _ _ Hstamp) as Hlen.
  unfold open_wb, write, trace, mbind, M_bind, bind in Hrun.
  subst w3 w2 w1. simpl in Hrun.
  destruct (denied w !! output_pdf) as [e |] eqn:Hden.
  { injection Hrun as <- <-.
    eexists _, ([EOpenRead input_pdf; EGenerate text 45 (3 # 10)]
                ++ merges ++ [EOpenWrite output_pdf]).
    simpl. rewrite <- !app_assoc. subst merges. rewrite Hovn. trace_facts. }
  simpl in Hrun. rewrite <- Hlen in Hrun. unfold n in Hrun.
  rewrite (heap_read_all (heap w) ps' (o :: os)) in Hrun.
  destruct (pdf_write ps').2 as [e |] eqn:Hwrite.
  - injection Hrun as <- <-.
    eexists _, ([EOpenRead input_pdf; EGenerate text 45 (3 # 10)]
                ++ merges ++ [EOpenWrite output_pdf; ESerialize output_pdf]).
    simpl. rewrite <- !app_assoc. subst merges. rewrite Hovn. trace_facts.
    by rewrite !lookup_insert_ne.
  - unfold print in Hrun. simpl in Hrun.
    change (refusal _ line) with (refusal w line) in Hrun.
    destruct (refusal w line) as [e |] eqn:Hline; injection Hrun as <- <-.
    + eexists _, ([EOpenRead input_pdf; EGenerate text 45 (3 # 10)]
                  ++ merges ++ [EOpenWrite output_pdf; ESerialize output_pdf]).
      simpl. rewrite <- !app_assoc. subst merges. rewrite Hovn. trace_facts.
      exists data, ps, o, os, ps'. by rewrite insert_insert_eq, app_nil_r.
    + eexists _, ([EOpenRead input_pdf; EGenerate text 45 (3 # 10)]
                  ++ merges ++ [EOpenWrite output_pdf; ESerialize output_pdf]).
      simpl. rewrite <- !app_assoc. subst merges. rewrite Hovn. trace_facts.
      exists data, ps, o, os, ps'. by rewrite insert_insert_eq.
Qed.

(** ** [add_watermark] and [main] *)

Lemma failure_record (input_pdf output_pdf text : string) (ev : event) (w : World) :
  failure input_pdf output_pdf text (record ev w) = failure input_pdf output_pdf text w.
Proof. done. Qed.

Lemma argv_positional (argv : list string) (input_pdf output_pdf : string) :
  argv !! 1%nat = Some input_pdf → argv !! 2%nat = Some output_pdf →
  (length argv <? 3)%nat = false ∧
  argv !!! 1%nat = input_pdf ∧ argv !!! 2%nat = output_pdf.
Proof.
  intros H1 H2. split; [| split].
  - apply lookup_lt_Some in H2. apply Nat.ltb_ge. lia.
  - by apply list_lookup_total_correct.
  - by apply list_lookup_total_correct.
Qed.

Lemma overlays_of_merges (ov : ref) (targets : list ref) :
  omap overlay_of (map (λ r, EMerge r ov) targets) = replicate (length targets) ov.
Proof.
  induction targets as [| r targets IH]; [done |].
  simpl. f_equal. apply IH.
Qed.

Lemma heap_read_back (h os : list page) :
  map (λ r, (h ++ os) !! r) (seq (length h) (length os)) = map Some os.
Proof.
  apply list_eq. intros i. rewrite !list_lookup_fmap.
  destruct (decide (i < length os)%nat) as [Hi | Hi].
  - rewrite lookup_seq_lt by done. simpl.
    rewrite lookup_app_r by lia.
    replace (length h + i - length h)%nat with i by lia.
    destruct (lookup_lt_is_Some_2 os i Hi) as [x Hx]. by rewrite Hx.
  - rewrite lookup_seq_ge by lia. by rewrite lookup_ge_None_2 by lia.
Qed.

(** The [except] clause: what [add_watermark] makes of the [try]
    block's result. *)
Lemma add_watermark_handler
    (input_pdf output_pdf : string) (text : option string) (w : World) :
  let run := add_watermark_try input_pdf output_pdf (default "PREPRINT" text) w in
  add_watermark input_pdf output_pdf text w =
    match run.1 with
    | Ok success => (Ok success, run.2)
    | Raise e =>
        let line := "❌ Error processing " +:+ input_pdf +:+ ": " +:+ e in
        match refusal w line with
        | None => (Ok false, emit_line line run.2)
        | Some e' => (Raise e', run.2)
        end
    end.
Proof.
  intros run. subst run. unfold add_watermark. cbv zeta.
  destruct (try_spec input_pdf output_pdf (default "PREPRINT" text) w)
    as (wf & evs & Hwf & _ & Hrej & _).
  destruct (add_watermark_try _ _ _ w) as [[success | e] w1]; [done |].
  simpl in *. subst wf. unfold mbind, M_bind, bind, print, refusal.
  rewrite Hrej. by destruct (if is_ascii _ then _ else _).
Qed.


Lemma default_opacity_in_range : (0 <= 3 # 10)%Q ∧ (3 # 10 <= 1)%Q.
Proof. split; by apply Qle_bool_iff. Qed.

(** ** Calls compose: what every step keeps *)

Section Confined.
Variables input_pdf output_pdf text : string.

Let keeps {A} (m : M A) : Prop :=
  ∀ w, confined input_pdf output_pdf text w (m w).2.

Lemma confined_refl (w : World) : confined input_pdf output_pdf text w w.
Proof.
  split; [done |]. split; [done |].
  exists []. by rewrite app_nil_r.
Qed.

Lemma confined_trans (w1 w2 w3 : World) :
  confined input_pdf output_pdf text w1 w2 →
  confined input_pdf output_pdf text w2 w3 →
  confined input_pdf output_pdf text w1 w3.
Proof.
  intros (Hd1 & Hf1 & evs1 & Hl1 & Hp1) (Hd2 & Hf2 & evs2 & Hl2 & Hp2).
  split; [congruence |]. split.
  - intros path Hne. rewrite Hf2, Hf1; done.
  - exists (evs1 ++ evs2). split.
    + by rewrite Hl2, Hl1, app_assoc.
    + by apply Forall_app.
Qed.

Lemma confined_record (ev : event) (w : World) :
  permitted input_pdf output_pdf text ev →
  confined input_pdf output_pdf text w (record ev w).
Proof.
  intros Hev. split; [done |]. split; [done |].
  exists [ev]. split; [done |]. by constructor.
Qed.

Lemma confined_silent (w w' : World) :
  denied w' = denied w → fs w' = fs w → log w' = log w →
  confined input_pdf output_pdf text w w'.
Proof.
  intros Hd Hf Hl. split; [done |]. split; [by rewrite Hf |].
  exists []. by rewrite app_nil_r.
Qed.

Lemma confined_output (data : bytes) (w : World) :
  confined input_pdf output_pdf text w
           (with_fs (<[output_pdf := data]> (fs w)) w).
Proof.
  split; [done |]. split.
  - intros path Hne. simpl. by rewrite lookup_insert_ne.
  - exists []. simpl. by rewrite app_nil_r.
Qed.

Lemma keeps_bind {A C} (m : M A) (k : A → M C) :
  keeps m → (∀ a, keeps (k a)) → keeps (m ≫= k).
Proof.
  intros Hm Hk w. specialize (Hm w).
  unfold mbind, M_bind, bind. destruct (m w) as [[a | e] w1]; simpl in *.
  - eapply confined_trans; [exact Hm | apply Hk].
  - exact Hm.
Qed.

Lemma keeps_ret {A} (a : A) : keeps (ret a).
Proof. intros w. apply confined_refl. Qed.

Lemma keeps_raise {A} (e : exn) : keeps (raise e : M A).
Proof. intros w. apply confined_refl. Qed.

Lemma keeps_lift {A} (r : result A) : keeps (lift r).
Proof. intros w. apply confined_refl. Qed.

Lemma keeps_trace (ev : event) :
  permitted input_pdf output_pdf text ev → keeps (trace ev).
Proof. intros Hev w. by apply confined_record. Qed.

Lemma keeps_print (line : string) : keeps (print line).
Proof.
  intros w. unfold print.
  destruct (refusal w line); [apply confined_refl | by apply confined_silent].
Qed.

Lemma keeps_getitem (l : list ref) (i : nat) : keeps (getitem l i).
Proof. intros w. unfold getitem. destruct (l !! i); apply confined_refl. Qed.

Lemma keeps_get_pages (reader : PdfReaderObj) : keeps (get_pages reader).
Proof. intros w. unfold get_pages. destruct (deferred reader); apply confined_refl. Qed.

Lemma keeps_alloc (ps : list page) : keeps (alloc ps).
Proof. intros w. by apply confined_silent. Qed.

Lemma keeps_save_canvas (can : canvas.Canvas) : keeps (save_canvas can).
Proof. intros w. by apply confined_silent. Qed.

Lemma keeps_parsed (data : bytes) :
  keeps (match pdf_parse data with
         | Ok ps => alloc ps ≫= λ refs, ret (mkReader refs None)
         | Raise e =>
             if pdf_deferred data then ret (mkReader [] (Some e)) else raise e
         end).
Proof.
  destruct (pdf_parse data) as [ps | e].
  - apply keeps_bind; [apply keeps_alloc |]. intros refs. apply keeps_ret.
  - destruct (pdf_deferred data); [apply keeps_ret | apply keeps_raise].
Qed.

Lemma keeps_PdfReader_stream (packet : bytes) : keeps (PdfReader (Stream packet)).
Proof.
  unfold PdfReader, read_bytes.
  apply keeps_bind; [apply keeps_ret |]. intros data. apply keeps_parsed.
Qed.

Lemma keeps_PdfReader_path : keeps (PdfReader (Path input_pdf)).
Proof.
  unfold PdfReader, read_bytes.
  apply keeps_bind.
  - apply keeps_bind; [by apply keeps_trace |]. intros _ w.
    destruct (fs w !! input_pdf); apply confined_refl.
  - intros data. apply keeps_parsed.
Qed.

Lemma keeps_create_watermark : keeps (create_watermark (Some text) None None).
Proof.
  unfold create_watermark.
  apply keeps_bind; [by apply keeps_trace |]. intros _.
  apply keeps_bind; [apply keeps_lift |]. intros can.
  apply keeps_bind; [apply keeps_save_canvas |]. intros packet.
  apply keeps_PdfReader_stream.
Qed.

Lemma keeps_merge_page (target overlay : ref) : keeps (merge_page target overlay).
Proof.
  unfold merge_page.
  apply keeps_bind; [by apply keeps_trace |]. intros _ w.
  destruct (heap w !! target) as [p |]; [| apply confined_refl].
  destruct (heap w !! overlay) as [o |]; [| apply confined_refl].
  destruct (pdf_merge p o); [by apply confined_silent | apply confined_refl].
Qed.

Lemma keeps_merge_loop (overlay : ref) (todo writer : list ref) :
  keeps (merge_loop overlay todo writer).
Proof.
  revert writer. induction todo as [| p todo IH]; intros writer.
  - apply keeps_ret.
  - cbn [merge_loop]. apply keeps_bind; [apply keeps_merge_page |].
    intros _. apply IH.
Qed.

Lemma keeps_open_wb : keeps (open_wb output_pdf).
Proof.
  unfold open_wb.
  apply keeps_bind; [by apply keeps_trace |]. intros _ w.
  destruct (denied w !! output_pdf); [apply confined_refl | apply confined_output].
Qed.

Lemma keeps_write (writer : list ref) : keeps (write writer output_pdf).
Proof.
  unfold write.
  apply keeps_bind; [by apply keeps_trace |]. intros _ w.
  destruct (mapM _ writer) as [ps |]; [| apply confined_refl].
  cbv zeta. destruct (pdf_write ps).2; apply confined_output.
Qed.

Lemma keeps_try : keeps (add_watermark_try input_pdf output_pdf text).
Proof.
  unfold add_watermark_try.
  apply keeps_bind; [apply keeps_PdfReader_path |]. intros reader.
  apply keeps_bind; [apply keeps_create_watermark |]. intros watermark.
  apply keeps_bind; [apply keeps_get_pages |]. intros watermark_pages.
  apply keeps_bind; [apply keeps_getitem |]. intros watermark_page.
  apply keeps_bind; [apply keeps_get_pages |]. intros todo.
  apply keeps_bind; [apply keeps_merge_loop |]. intros writer.
  apply keeps_bind; [apply keeps_open_wb |]. intros _.
  apply keeps_bind; [apply keeps_write |]. intros _.
  apply keeps_bind; [apply keeps_print |]. intros _. apply keeps_ret.
Qed.

End Confined.

Lemma add_watermark_keeps
    (input_pdf output_pdf : string) (text : option string) (w : World) :
  confined input_pdf output_pdf (default "PREPRINT" text) w
           (add_watermark input_pdf output_pdf text w).2.
Proof.
  unfold add_watermark. cbv zeta.
  pose proof (keeps_try input_pdf output_pdf (default "PREPRINT" text) w) as Htry.
  destruct (add_watermark_try _ _ _ w) as [[success | e] w1]; simpl in *.
  - exact Htry.
  - eapply confined_trans; [exact Htry |].
    apply (keeps_bind input_pdf output_pdf (default "PREPRINT" text));
      [apply keeps_print | intros _; apply keeps_ret].
Qed.

Lemma add_watermark_keeps_log
    (input_pdf output_pdf : string) (text : option string) (w : World) :
  ∃ evs : list event,
    log (add_watermark input_pdf output_pdf text w).2 = log w ++ evs.
Proof.
  destruct (add_watermark_keeps input_pdf output_pdf text w)
    as (_ & _ & evs & Hlog & _).
  by exists evs.
Qed.


(** What a run prints: at most one line, and after the argument check
    never an ASCII one. *)
Lemma add_watermark_lines
    (input_pdf output_pdf : string) (text : option string) (w : World) :
  ∃ ls : list string,
    stdout (add_watermark input_pdf output_pdf text w).2 = stdout w ++ ls ∧
    (length ls ≤ 1)%nat ∧
    Forall (λ line, is_ascii line = false) ls ∧
    ((∀ line, accepts w line) → length ls = 1%nat).
Proof.
  rewrite add_watermark_handler. cbv zeta.
  destruct (try_spec input_pdf output_pdf (default "PREPRINT" text) w)
    as (w1 & evs & Hrun & _ & _ & _ & _ & Hcase).
  rewrite Hrun. unfold accepts.
  destruct (failure _ _ _ w) as [[st e] |].
  - destruct Hcase as (-> & Hout & _).
    destruct (refusal w _) as [e' |] eqn:Href; simpl; rewrite Hout.
    + exists []. rewrite app_nil_r. repeat split; auto.
      intros Hall. by rewrite Hall in Href.
    + eexists [_]. repeat split; auto.
  - destruct Hcase as (? & ? & ? & ? & ? & _ & _ & _ & _ & _ & _ & _ & _ & _
                       & -> & Hout).
    destruct (refusal w ("✅ Successfully added watermark to " +:+ output_pdf))
      as [e |] eqn:Hline.
    + rewrite app_nil_r in Hout.
      destruct (refusal w ("❌ Error processing " +:+ _)) as [e' |] eqn:Href;
        simpl; rewrite Hout.
      * exists []. rewrite app_nil_r. repeat split; auto.
        intros Hall. by rewrite Hall in Href.
      * eexists [_]. repeat split; auto.
    + simpl. rewrite Hout. eexists [_]. repeat split; auto.
Qed.

Lemma main_lines (argv : list string) (w : World) :
  (3 ≤ length argv)%nat →
  ∃ (ls : list string) (evs : list event),
    stdout (main argv w).2 = stdout w ++ ls ∧
    (length ls ≤ 1)%nat ∧
    Forall (λ line, is_ascii line = false) ls ∧
    ((∀ line, accepts w line) → length ls = 1%nat) ∧
    log (main argv w).2 = log w ++ EExists (argv !!! 1%nat) :: evs.
Proof.
  intros Hlen. unfold main.
  replace (length argv <? 3)%nat with false by (symmetry; apply Nat.ltb_ge; lia).
  cbv zeta. unfold os_path_exists.
  set (input_pdf := argv !!! 1%nat). set (output_pdf := argv !!! 2%nat).
  destruct (bool_decide _).
  - destruct (add_watermark_lines input_pdf output_pdf None
                (record (EExists input_pdf) w)) as (ls & Hout & Hone & Hnon & Hall).
    destruct (add_watermark_keeps_log input_pdf output_pdf None
                (record (EExists input_pdf) w)) as (evs & Hlog).
    exists ls, evs.
    destruct (add_watermark _ _ None _) as [[success | e] w1]; simpl in *;
      rewrite <- app_assoc in Hlog; done.
  - unfold print_and_exit, print, accepts.
    change (refusal (record (EExists input_pdf) w)) with (refusal w).
    destruct (refusal w _) as [e |] eqn:Href; simpl.
    + exists [], []. rewrite app_nil_r. repeat split; auto.
      intros Hall. by rewrite Hall in Href.
    + eexists [_], []. repeat split; auto.
Qed.

(** * The claims *)

(** C1. When [add_watermark] succeeds, the input file parsed into some
    pages [ps], and the document written to the output path is the
    serialisation of pages [ps'] that are, position by position, the
    pages of [ps] with the watermark page merged into them; so the output
    has exactly as many pages as the input, in the same order. *)
Theorem add_watermark_preserves_pages
    (input_pdf output_pdf : string) (text : option string) (w w' : World) :
  add_watermark input_pdf output_pdf text w = (Ok true, w') →
  ∃ (data : bytes) (ps : list page) (o : page) (ps' : list page),
    fs w !! input_pdf = Some data ∧ pdf_parse data = Ok ps ∧
    watermark_object (clock w) (default "PREPRINT" text) 45 (3 # 10) = Ok o ∧
    Forall2 (λ p p', pdf_merge p o = Ok p') ps ps' ∧
    length ps' = length ps ∧
    (pdf_write ps').2 = None ∧
    fs w' !! output_pdf = Some (pdf_write ps').1.
Proof.
  rewrite add_watermark_handler. cbv zeta.
  destruct (try_spec input_pdf output_pdf (default "PREPRINT" text) w)
    as (wf & evs & Hwf & _ & _ & _ & _ & Hcase).
  destruct (failure _ _ _ w) as [[st e] |].
  { destruct Hcase as (-> & _). by destruct (refusal w _). }
  destruct Hcase as (data & ps & o & os & ps' & Hd & Hp & Ho & Hs & _ & Hw & Hfs
                     & _ & _ & -> & _).
  destruct (refusal w ("✅ Successfully added watermark to " +:+ output_pdf)).
  { by destruct (refusal w _). }
  rewrite Hwf. intros [= <-].
  exists data, ps, o, ps'. repeat split; try done.
  - by apply stamp_all_Forall2.
  - by apply stamp_all_length in Hs.
  - rewrite Hfs. apply lookup_insert_eq.
Qed.


(** C3. In a run that has read its input document, [create_watermark]
    is called exactly once, with the text alone (never with anything
    about the pages), and every merge is given one and the same page
    object, the first page of what that call returned.  When the run
    succeeds there is one merge per page, the object still holds the
    watermark unchanged, and every page of the output is the input page
    merged with that one watermark. *)
Theorem watermark_generated_once
    (input_pdf output_pdf : string) (text : option string) (w w' : World)
    (data : bytes) (ps : list page) (r : result bool) :
  fs w !! input_pdf = Some data → pdf_parse data = Ok ps →
  add_watermark input_pdf output_pdf text w = (r, w') →
  let ov := (length (heap w) + length ps)%nat in
  ∃ evs : list event,
    log w' = log w ++ evs ∧
    filter is_generate evs = [EGenerate (default "PREPRINT" text) 45 (3 # 10)] ∧
    Forall (λ ev, ∀ o', overlay_of ev = Some o' → o' = ov) evs ∧
    (r = Ok true →
     ∃ (o : page) (ps' : list page),
       watermark_object (clock w) (default "PREPRINT" text) 45 (3 # 10) = Ok o ∧
       omap overlay_of evs = replicate (length ps) ov ∧
       heap w' !! ov = Some o ∧
       Forall2 (λ p p', pdf_merge p o = Ok p') ps ps' ∧
       fs w' !! output_pdf = Some (pdf_write ps').1).
Proof.
  intros Hdata Hps Hrun ov. rewrite add_watermark_handler in Hrun.
  cbv zeta in Hrun.
  destruct (try_spec input_pdf output_pdf (default "PREPRINT" text) w)
    as (wf & evs & Hwf & _ & _ & Hlog & Htrace & Hcase).
  destruct (Htrace data ps Hdata Hps) as [Hgen Hov].
  exists evs.
  assert (log w' = log wf) as ->.
  { destruct (add_watermark_try _ _ _ w) as [[success | e] w1];
      simpl in *; subst wf.
    - by injection Hrun as _ <-.
    - destruct (refusal w _); by injection Hrun as _ <-. }
  repeat split; try done. intros ->.
  destruct (failure _ _ _ w) as [[st e] |].
  { destruct Hcase as (Hraise & _). rewrite Hraise in Hrun.
    by destruct (refusal w _). }
  destruct Hcase as (data' & ps0 & o & os & ps' & Hd & Hp & Ho & Hs & _ & _
                     & Hfs & Hheap & Hevs & Hres & _).
  rewrite Hres in Hrun.
  destruct (refusal w ("✅ Successfully added watermark to " +:+ output_pdf)).
  { by destruct (refusal w _). }
  injection Hrun as <-. rewrite Hwf.
  rewrite Hdata in Hd. injection Hd as <-.
  rewrite Hps in Hp. injection Hp as <-.
  rewrite Hevs. exists o, ps'. repeat split; try done.
  - rewrite !omap_app, overlays_of_merges, length_seq. simpl.
    by rewrite app_nil_r.
  - rewrite Hheap, app_assoc. apply list_lookup_middle.
    rewrite length_app. apply stamp_all_length in Hs. subst ov. lia.
  - by apply stamp_all_Forall2.
  - rewrite Hfs. apply lookup_insert_eq.
Qed.






(** C9. If the step that fails is reading or parsing the input,
    generating the watermark, or merging a page, then [add_watermark]
    does not return [True] (it returns [False] whenever its error line
    can be printed), and it never opens a file for writing: the files,
    and with them whatever was at the output path, are exactly as
    before. *)
Theorem early_failure_leaves_output
    (input_pdf output_pdf : string) (text : option string) (w : World)
    (st : stage) (e : exn) :
  failure input_pdf output_pdf (default "PREPRINT" text) w = Some (st, e) →
  st ≠ Serialize →
  ∃ (r : result bool) (w' : World) (evs : list event),
    add_watermark input_pdf output_pdf text w = (r, w') ∧
    r ≠ Ok true ∧
    (accepts w ("❌ Error processing " +:+ input_pdf +:+ ": " +:+ e) → r = Ok false) ∧
    log w' = log w ++ evs ∧
    Forall (λ ev, is_open_write ev = false) evs ∧
    fs w' = fs w.
Proof.
  intros Hfail Hst. rewrite add_watermark_handler. cbv zeta.
  destruct (try_spec input_pdf output_pdf (default "PREPRINT" text) w)
    as (w1 & evs & Hrun & _ & _ & Hlog & _ & Hcase).
  rewrite Hfail in Hcase.
  destruct Hcase as (Hraise & _ & Hearly & _). destruct (Hearly Hst) as [Hfs Hnone].
  rewrite Hraise, Hrun. unfold accepts.
  destruct (refusal w _) as [e' |]; eexists _, _, evs;
    (split; [reflexivity |]); repeat split; try done.
Qed.

(** C10. Arguments after the second are ignored: the run is that of the
    invocation with the first two alone.  The invocation is not
    rejected: the run goes past the argument check to the existence
    check of its first path, and the usage line is not what it
    prints. *)
Theorem main_extra_arguments
    (prog input_pdf output_pdf : string) (extra : list string) (w : World) :
  let run := main (prog :: input_pdf :: output_pdf :: extra) w in
  run = main [prog; input_pdf; output_pdf] w ∧
  (∃ evs : list event, log run.2 = log w ++ EExists input_pdf :: evs) ∧
  stdout run.2 ≠ stdout w ++ [usage].
Proof.
  cbv zeta. split; [reflexivity |].
  destruct (main_lines (prog :: input_pdf :: output_pdf :: extra) w)
    as (ls & evs & Hout & _ & Hnon & _ & Hlog); [simpl; lia |].
  split; [by exists evs |].
  rewrite Hout. intros Heq. apply app_inv_head in Heq. subst ls.
  by apply Forall_cons_1 in Hnon as [Hnon _].
Qed.

(** * Further properties of the script *)

(** X1. However it ends, a call of [add_watermark] changes no file
    other than the output path, reads no path other than the input, opens
    no path other than the output for writing, and generates the
    watermark only from its text with angle 45 and opacity 0.3. *)
Theorem add_watermark_confined
    (input_pdf output_pdf : string) (text : option string) (w : World) :
  confined input_pdf output_pdf (default "PREPRINT" text) w
           (add_watermark input_pdf output_pdf text w).2.
Proof. apply add_watermark_keeps. Qed.

(** ** The whole script *)

(** X2. Whatever can be imported and whatever the arguments, a run of
    the script makes only these calls: the existence check and the read of
    its first argument, the generation of the default watermark
    ("PREPRINT", 45, 0.3), merges, and the opening and writing of its
    second argument; no other file is changed. *)
Theorem script_confined
    (env : gset (string * string)) (argv : list string) (w : World) :
  confined (argv !!! 1%nat) (argv !!! 2%nat) "PREPRINT" w (script env argv w).2.
Proof.
  assert (∀ line v, confined (argv !!! 1%nat) (argv !!! 2%nat) "PREPRINT" v
                             (print_and_exit line v).2) as Hexit.
  { intros line v. unfold print_and_exit, print.
    destruct (refusal v line); [apply confined_refl | by apply confined_silent]. }
  unfold script. destruct (import_block env); [| apply Hexit].
  unfold main. destruct (length argv <? 3)%nat; [apply Hexit |].
  cbv zeta. unfold os_path_exists.
  set (input_pdf := argv !!! 1%nat) in *. set (output_pdf := argv !!! 2%nat) in *.
  assert (confined input_pdf output_pdf "PREPRINT" w (record (EExists input_pdf) w))
    as Hcheck by (by apply confined_record).
  destruct (bool_decide _).
  - pose proof (add_watermark_keeps input_pdf output_pdf None
                  (record (EExists input_pdf) w)) as Hrun.
    destruct (add_watermark _ _ None _) as [[success | e] w1]; simpl in *;
      (eapply confined_trans; [exact Hcheck | exact Hrun]).
  - eapply confined_trans; [exact Hcheck | apply Hexit].
Qed.



(** ** The [try] block, stage by stage *)

Lemma watermark_object_inv (stamp : nat) (t : string) (a op : Q) (o : page) :
  watermark_object stamp t a op = Ok o →
  ∃ (doc : list cpage) (packet : bytes) (os : list page),
    watermark_document t a op = Ok doc ∧
    canvas_save stamp doc = Ok packet ∧
    pdf_parse packet = Ok (o :: os).
Proof.
  unfold watermark_object. intros Hobj.
  destruct (watermark_document t a op) as [doc |] eqn:Hdoc; [| done].
  destruct (canvas_save stamp doc) as [packet |] eqn:Hsave; [| done].
  destruct (pdf_parse packet) as [[| o' os] |] eqn:Hparse; [done | | done].
  injection Hobj as ->. by exists doc, packet, os.
Qed.

(** Once the input and the watermark are read, the run is the merge
    loop over the input's page objects followed by the output steps. *)
Lemma try_to_loop (input_pdf output_pdf text : string) (w : World)
    (data : bytes) (ps : list page) (o : page) :
  fs w !! input_pdf = Some data → pdf_parse data = Ok ps →
  watermark_object (clock w) text 45 (3 # 10) = Ok o →
  ∃ os : list page,
    add_watermark_try input_pdf output_pdf text w =
      match merge_loop (length (heap w) + length ps)%nat
                       (seq (length (heap w)) (length ps)) PdfWriter
                       (mkWorld (fs w) (denied w) (stdout_rejects w) (S (clock w))
                          (heap w ++ ps ++ o :: os) (stdout w)
                          (log w ++ [EOpenRead input_pdf; EGenerate text 45 (3 # 10)]))
      with
      | (Ok writer, w') =>
          (open_wb output_pdf ≫= λ _,
           write writer output_pdf ≫= λ _,
           print ("✅ Successfully added watermark to " +:+ output_pdf) ≫= λ _,
           ret true) w'
      | (Raise e, w') => (Raise e, w')
      end.
Proof.
  intros Hdata Hps Hobj.
  pose (K := λ (reader : PdfReaderObj) (watermark_page : ref),
          get_pages reader ≫= λ todo,
          merge_loop watermark_page todo PdfWriter ≫= λ writer,
          open_wb output_pdf ≫= λ _,
          write writer output_pdf ≫= λ _,
          print ("✅ Successfully added watermark to " +:+ output_pdf) ≫= λ _,
          (ret true : M bool)).
  change (add_watermark_try input_pdf output_pdf text)
    with (PdfReader (Path input_pdf) ≫= λ reader,
          create_watermark (Some text) None None ≫= λ watermark,
          get_pages watermark ≫= λ watermark_pages,
          getitem watermark_pages 0 ≫= K reader).
  unfold mbind at 1, M_bind at 1, bind at 1.
  rewrite PdfReader_path, Hdata, Hps.
  set (w2 := with_heap (heap w ++ ps) (record (EOpenRead input_pdf) w)).
  pose proof (watermark_phase text
                (K (mkReader (seq (length (heap w)) (length ps)) None)) w2)
    as Hphase.
  cbv zeta in Hphase. change (clock w2) with (clock w) in Hphase.
  rewrite Hobj in Hphase. destruct Hphase as (os & ->). exists os.
  unfold K at 1. unfold mbind at 1, M_bind at 1, bind at 1.
  unfold get_pages at 1. cbn [deferred pages ret].
  unfold mbind at 1, M_bind at 1, bind at 1.
  replace (length (heap w2)) with (length (heap w) + length ps)%nat
    by (subst w2; simpl; by rewrite length_app).
  set (w3 := with_heap _ _).
  replace w3
    with (mkWorld (fs w) (denied w) (stdout_rejects w) (S (clock w))
            (heap w ++ ps ++ o :: os) (stdout w)
            (log w ++ [EOpenRead input_pdf; EGenerate text 45 (3 # 10)]));
    [reflexivity |].
  subst w3 w2. unfold with_heap, tick, record. simpl. by rewrite <- !app_assoc.
Qed.

(** The loop over two runs of pages is the loop over the first, then
    the loop over the second. *)
Lemma merge_loop_app (overlay : ref) (todo1 todo2 : list ref) :
  ∀ (writer : list ref) (w : World),
    merge_loop overlay (todo1 ++ todo2) writer w =
      match merge_loop overlay todo1 writer w with
      | (Ok writer', w') => merge_loop overlay todo2 writer' w'
      | (Raise e, w') => (Raise e, w')
      end.
Proof.
  induction todo1 as [| p todo1 IH]; intros writer w; [done |].
  cbn [app merge_loop]. unfold mbind, M_bind, bind.
  destruct (merge_page p overlay w) as [[[] | e] w1]; [apply IH | done].
Qed.

(** With every page merged, what is left is opening and writing. *)
Lemma try_after_merges (input_pdf output_pdf text : string) (w : World)
    (data : bytes) (ps ps' : list page) (o : page) :
  fs w !! input_pdf = Some data → pdf_parse data = Ok ps →
  watermark_object (clock w) text 45 (3 # 10) = Ok o →
  stamp_all o ps = Ok ps' →
  ∃ os : list page,
    add_watermark_try input_pdf output_pdf text w =
      (open_wb output_pdf ≫= λ _,
       write (seq (length (heap w)) (length ps)) output_pdf ≫= λ _,
       print ("✅ Successfully added watermark to " +:+ output_pdf) ≫= λ _,
       ret true)
        (mkWorld (fs w) (denied w) (stdout_rejects w) (S (clock w))
           (heap w ++ ps' ++ o :: os) (stdout w)
           (log w ++ [EOpenRead input_pdf; EGenerate text 45 (3 # 10)]
                  ++ map (λ r, EMerge r (length (heap w) + length ps)%nat)
                         (seq (length (heap w)) (length ps)))).
Proof.
  intros Hdata Hps Hobj Hstamp.
  destruct (try_to_loop input_pdf output_pdf text w data ps o Hdata Hps Hobj)
    as (os & ->).
  exists os.
  set (w3 := mkWorld _ _ _ _ (heap w ++ ps ++ o :: os) _ _).
  pose proof (merge_loop_spec ps (heap w) (o :: os) o
                (length (heap w) + length ps)%nat PdfWriter w3) as Hloop.
  lapply Hloop; [clear Hloop; intros Hloop | done].
  lapply Hloop; [clear Hloop; intros Hloop |].
  2:{ simpl. rewrite app_assoc. apply list_lookup_middle. by rewrite length_app. }
  lapply Hloop; [clear Hloop; intros Hloop | right; lia].
  cbv zeta in Hloop. rewrite Hstamp in Hloop. rewrite Hloop.
  subst w3. simpl. by rewrite <- !app_assoc.
Qed.

(** What the handler makes of an exception the [try] block raised. *)
Lemma handler_outcome (input_pdf output_pdf : string) (text : option string)
    (w w1 : World) (e : exn) :
  add_watermark_try input_pdf output_pdf (default "PREPRINT" text) w = (Raise e, w1) →
  let line := "❌ Error processing " +:+ input_pdf +:+ ": " +:+ e in
  ∃ (r : result bool) (w' : World),
    add_watermark input_pdf output_pdf text w = (r, w') ∧
    r ≠ Ok true ∧
    fs w' = fs w1 ∧ heap w' = heap w1 ∧ log w' = log w1 ∧
    (accepts w line → r = Ok false ∧ stdout w' = stdout w1 ++ [line]).
Proof.
  intros Htry line. rewrite add_watermark_handler. cbv zeta. rewrite Htry.
  simpl. fold line. unfold accepts.
  destruct (refusal w line); eexists _, _; (split; [reflexivity |]);
    repeat split; try done.
Qed.

(** X5. If constructing the reader of the input raises (the file cannot
    be opened, or is rejected at once), [add_watermark] stops there: it
    has only opened the input, the watermark is never generated, no page
    object exists, no file is changed, and the line printed, if standard
    output takes it, reports that error. *)
Theorem unreadable_input_stops
    (input_pdf output_pdf : string) (text : option string) (w : World) (e : exn) :
  (PdfReader (Path input_pdf) w).1 = Raise e →
  ∃ (r : result bool) (w' : World),
    add_watermark input_pdf output_pdf text w = (r, w') ∧
    r ≠ Ok true ∧
    fs w' = fs w ∧ heap w' = heap w ∧
    log w' = log w ++ [EOpenRead input_pdf] ∧
    (accepts w ("❌ Error processing " +:+ input_pdf +:+ ": " +:+ e) →
     r = Ok false ∧
     stdout w' = stdout w ++ ["❌ Error processing " +:+ input_pdf +:+ ": " +:+ e]).
Proof.
  intros Hreader.
  assert (add_watermark_try input_pdf output_pdf (default "PREPRINT" text) w
          = (Raise e, record (EOpenRead input_pdf) w)) as Htry.
  { unfold add_watermark_try. unfold mbind at 1, M_bind at 1, bind at 1.
    rewrite PdfReader_path in *.
    destruct (fs w !! input_pdf) as [data |]; [| by injection Hreader as <-].
    destruct (pdf_parse data) as [ps | e']; [done |].
    destruct (pdf_deferred data); [done |]. by injection Hreader as <-. }
  destruct (handler_outcome _ _ _ _ _ _ Htry) as (r & w' & Hrun & Hr & Hfs & Hheap & Hlog & Hline).
  exists r, w'. by rewrite Hfs, Hheap, Hlog.
Qed.

(** X6. If everything up to the last merge succeeds but the output path
    cannot be opened, [add_watermark] does not return [True], no file is
    changed, and the line printed, if standard output takes it, reports
    that error, [add_watermark] then returning [False]. *)
Theorem refused_output_changes_nothing
    (input_pdf output_pdf : string) (text : option string) (w : World)
    (data : bytes) (ps ps' : list page) (o : page) (e : exn) :
  fs w !! input_pdf = Some data → pdf_parse data = Ok ps →
  watermark_object (clock w) (default "PREPRINT" text) 45 (3 # 10) = Ok o →
  stamp_all o ps = Ok ps' →
  denied w !! output_pdf = Some e →
  ∃ (r : result bool) (w' : World),
    add_watermark input_pdf output_pdf text w = (r, w') ∧
    r ≠ Ok true ∧
    fs w' = fs w ∧
    (accepts w ("❌ Error processing " +:+ input_pdf +:+ ": " +:+ e) →
     r = Ok false ∧
     stdout w' = stdout w ++ ["❌ Error processing " +:+ input_pdf +:+ ": " +:+ e]).
Proof.
  intros Hdata Hps Hobj Hstamp Hden.
  destruct (try_after_merges input_pdf output_pdf _ w data ps ps' o
              Hdata Hps Hobj Hstamp) as (os & Htry).
  assert (∃ w1, add_watermark_try input_pdf output_pdf (default "PREPRINT" text) w
                = (Raise e, w1) ∧ fs w1 = fs w ∧ stdout w1 = stdout w)
    as (w1 & Hraise & Hfs1 & Hout1).
  { rewrite Htry. run. rewrite Hden. by eexists. }
  destruct (handler_outcome _ _ _ _ _ _ Hraise) as (r & w' & Hrun & Hr & Hfs & _ & _ & Hline).
  exists r, w'. by rewrite Hfs, Hfs1, <- Hout1.
Qed.

(** X7. If the writer fails part-way, [add_watermark] does not return
    [True], and the output path is left holding the bytes written so
    far: whatever it held before is gone, also when it is the input file
    itself.  The line printed, if standard output takes it, reports the
    error, [add_watermark] then returning [False]. *)
Theorem interrupted_write_leaves_partial_output
    (input_pdf output_pdf : string) (text : option string) (w : World)
    (data written : bytes) (ps ps' : list page) (o : page) (e : exn) :
  fs w !! input_pdf = Some data → pdf_parse data = Ok ps →
  watermark_object (clock w) (default "PREPRINT" text) 45 (3 # 10) = Ok o →
  stamp_all o ps = Ok ps' →
  denied w !! output_pdf = None →
  pdf_write ps' = (written, Some e) →
  ∃ (r : result bool) (w' : World),
    add_watermark input_pdf output_pdf text w = (r, w') ∧
    r ≠ Ok true ∧
    fs w' = <[output_pdf := written]> (fs w) ∧
    (accepts w ("❌ Error processing " +:+ input_pdf +:+ ": " +:+ e) →
     r = Ok false ∧
     stdout w' = stdout w ++ ["❌ Error processing " +:+ input_pdf +:+ ": " +:+ e]).
Proof.
  intros Hdata Hps Hobj Hstamp Hden Hwrite.
  destruct (try_after_merges input_pdf output_pdf _ w data ps ps' o
              Hdata Hps Hobj Hstamp) as (os & Htry).
  pose proof (stamp_all_length _ _ _ Hstamp) as Hlen.
  assert (∃ w1, add_watermark_try input_pdf output_pdf (default "PREPRINT" text) w
                = (Raise e, w1) ∧ fs w1 = <[output_pdf := written]> (fs w)
                ∧ stdout w1 = stdout w)
    as (w1 & Hraise & Hfs1 & Hout1).
  { rewrite Htry. run. rewrite Hden. simpl.
    rewrite <- Hlen, heap_read_all, Hwrite. simpl.
    eexists. split; [reflexivity |]. simpl. by rewrite insert_insert_eq. }
  destruct (handler_outcome _ _ _ _ _ _ Hraise) as (r & w' & Hrun & Hr & Hfs & _ & _ & Hline).
  exists r, w'. by rewrite Hfs, Hfs1, <- Hout1.
Qed.

(** X8. If the first page that cannot be merged is preceded by pages
    that merged, [add_watermark] makes one merge call for each of those
    and one for the failing page, none for the pages after it; the pages
    before it have been changed in place, it and the later ones are as
    read; no file is changed and the error reported, if standard output
    takes the line, is that page's. *)
Theorem first_failed_merge_stops
    (input_pdf output_pdf : string) (text : option string) (w : World)
    (data : bytes) (ps1 ps1' ps2 : list page) (p o : page) (e : exn) :
  fs w !! input_pdf = Some data → pdf_parse data = Ok (ps1 ++ p :: ps2) →
  watermark_object (clock w) (default "PREPRINT" text) 45 (3 # 10) = Ok o →
  stamp_all o ps1 = Ok ps1' → pdf_merge p o = Raise e →
  let n := length (heap w) in
  let ov := (n + length (ps1 ++ p :: ps2))%nat in
  ∃ (r : result bool) (w' : World) (os : list page),
    add_watermark input_pdf output_pdf text w = (r, w') ∧
    r ≠ Ok true ∧
    fs w' = fs w ∧
    (accepts w ("❌ Error processing " +:+ input_pdf +:+ ": " +:+ e) →
     r = Ok false ∧
     stdout w' = stdout w ++ ["❌ Error processing " +:+ input_pdf +:+ ": " +:+ e]) ∧
    log w' = log w ++ [EOpenRead input_pdf;
                       EGenerate (default "PREPRINT" text) 45 (3 # 10)]
                   ++ map (λ r, EMerge r ov) (seq n (S (length ps1))) ∧
    heap w' = heap w ++ ps1' ++ p :: ps2 ++ o :: os.
Proof.
  intros Hdata Hps Hobj Hstamp Hfail n ov.
  pose proof (stamp_all_length _ _ _ Hstamp) as Hlen.
  destruct (try_to_loop input_pdf output_pdf _ w data _ o Hdata Hps Hobj)
    as (os & Htry).
  assert (∃ w1, add_watermark_try input_pdf output_pdf (default "PREPRINT" text) w
                = (Raise e, w1) ∧ fs w1 = fs w ∧ stdout w1 = stdout w ∧
                log w1 = log w ++ [EOpenRead input_pdf;
                                   EGenerate (default "PREPRINT" text) 45 (3 # 10)]
                               ++ map (λ r, EMerge r ov) (seq n (S (length ps1))) ∧
                heap w1 = heap w ++ ps1' ++ p :: ps2 ++ o :: os)
    as (w1 & Hraise & Hfs1 & Hout1 & Hlog1 & Hheap1).
  { rewrite Htry. clear Htry.
    fold n ov. set (w3 := mkWorld _ _ _ _ _ _ _).
    replace (length (ps1 ++ p :: ps2)) with (length ps1 + S (length ps2))%nat
      by (rewrite length_app; done).
    rewrite seq_app, merge_loop_app.
    pose proof (merge_loop_spec ps1 (heap w) (p :: ps2 ++ o :: os) o ov PdfWriter w3)
      as Hloop.
    lapply Hloop; [clear Hloop; intros Hloop | by (subst w3; simpl; rewrite <- !app_assoc)].
    lapply Hloop; [clear Hloop; intros Hloop |].
    2:{ subst w3 ov n. simpl. rewrite app_assoc. apply list_lookup_middle.
        rewrite !length_app. simpl. lia. }
    lapply Hloop; [clear Hloop; intros Hloop |].
    2:{ right. subst ov n. rewrite length_app. lia. }
    cbv zeta in Hloop. rewrite Hstamp in Hloop. fold n in Hloop. rewrite Hloop.
    cbn [seq merge_loop]. unfold mbind, M_bind, bind.
    set (w4 := mkWorld _ _ _ _ (heap w ++ ps1' ++ p :: ps2 ++ o :: os) _ _).
    assert (merge_page (n + length ps1) ov w4
            = (Raise e, record (EMerge (n + length ps1)%nat ov) w4)) as ->.
    { run.
      replace ((heap w ++ ps1' ++ p :: ps2 ++ o :: os) !! (n + length ps1)%nat)
        with (Some p).
      2:{ symmetry. rewrite app_assoc. apply list_lookup_middle.
          rewrite length_app. subst n. lia. }
      replace ((heap w ++ ps1' ++ p :: ps2 ++ o :: os) !! ov) with (Some o).
      2:{ symmetry.
          replace (heap w ++ ps1' ++ p :: ps2 ++ o :: os)
            with ((heap w ++ ps1' ++ p :: ps2) ++ o :: os)
            by (by rewrite <- !app_assoc).
          apply list_lookup_middle. subst ov n. rewrite !length_app. simpl. lia. }
      by rewrite Hfail. }
    eexists. split; [reflexivity |]. repeat split.
    subst w4 w3. unfold record. cbn [log].
    change (n :: seq (S n) (length ps1)) with (seq n (S (length ps1))).
    rewrite seq_S, map_app. cbn [map]. by rewrite <- !app_assoc. }
  destruct (handler_outcome _ _ _ _ _ _ Hraise)
    as (r & w' & Hrun & Hr & Hfs & Hheap & Hlog & Hline).
  exists r, w', os. by rewrite Hfs, Hfs1, Hlog, Hlog1, Hheap, Hheap1, <- Hout1.
Qed.

(** X9. A document without pages is accepted: the watermark is still
    generated, no merge is made, and the output path receives the
    serialisation of the empty document; [add_watermark] returns [True]
    when standard output takes the confirmation line. *)
Theorem empty_document_is_written
    (input_pdf output_pdf : string) (text : option string) (w : World)
    (data : bytes) (o : page) :
  fs w !! input_pdf = Some data → pdf_parse data = Ok [] →
  watermark_object (clock w) (default "PREPRINT" text) 45 (3 # 10) = Ok o →
  denied w !! output_pdf = None → (pdf_write []).2 = None →
  ∃ (r : result bool) (w' : World),
    add_watermark input_pdf output_pdf text w = (r, w') ∧
    (accepts w ("✅ Successfully added watermark to " +:+ output_pdf) → r = Ok true) ∧
    fs w' = <[output_pdf := (pdf_write []).1]> (fs w) ∧
    log w' = log w ++ [EOpenRead input_pdf;
                       EGenerate (default "PREPRINT" text) 45 (3 # 10);
                       EOpenWrite output_pdf; ESerialize output_pdf].
Proof.
  intros Hdata Hps Hobj Hden Hwrite.
  assert (failure input_pdf output_pdf (default "PREPRINT" text) w = None) as Hok.
  { unfold failure. rewrite Hdata, Hps, Hobj. simpl. by rewrite Hden, Hwrite. }
  destruct (try_spec input_pdf output_pdf (default "PREPRINT" text) w)
    as (w1 & evs & Hw1 & _ & _ & Hlog & _ & Hcase).
  rewrite Hok in Hcase.
  destruct Hcase as (d & q & o' & os & q' & Hd & Hp & Ho & Hs & _ & _
                     & Hfs & _ & Hevs & Hres & _).
  rewrite Hdata in Hd. injection Hd as <-.
  rewrite Hps in Hp. injection Hp as <-.
  injection Hs as <-. simpl in Hevs. subst evs.
  rewrite add_watermark_handler. cbv zeta. rewrite Hres, Hw1. unfold accepts.
  destruct (refusal w ("✅ Successfully added watermark to " +:+ output_pdf))
    as [e |].
  - destruct (refusal w ("❌ Error processing " +:+ _)); eexists _, _;
      (split; [reflexivity |]); done.
  - eexists _, _. split; [reflexivity |]. done.
Qed.

(** Opening, writing and printing do not ask for the time. *)
Lemma output_steps_clock (output_pdf line : string) (writer : list ref) (v : World) :
  clock ((open_wb output_pdf ≫= λ _,
          write writer output_pdf ≫= λ _,
          print line ≫= λ _, ret true) v).2 = clock v.
Proof.
  unfold print. run.
  destruct (denied v !! output_pdf); [done |]. simpl.
  destruct (mapM _ writer) as [ps |]; [| done]. simpl.
  destruct (pdf_write ps).2; [done |]. simpl.
  by destruct (refusal _ line).
Qed.

(** A call that returned [True] is a run of the [try] block on which no
    step failed. *)
Lemma returned_true (input_pdf output_pdf : string) (text : option string)
    (w w' : World) :
  add_watermark input_pdf output_pdf text w = (Ok true, w') →
  ∃ (data : bytes) (ps ps' : list page) (o : page),
    fs w !! input_pdf = Some data ∧ pdf_parse data = Ok ps ∧
    watermark_object (clock w) (default "PREPRINT" text) 45 (3 # 10) = Ok o ∧
    stamp_all o ps = Ok ps' ∧
    fs w' = <[output_pdf := (pdf_write ps').1]> (fs w) ∧
    clock w' = S (clock w).
Proof.
  intros Hrun. rewrite add_watermark_handler in Hrun. cbv zeta in Hrun.
  destruct (try_spec input_pdf output_pdf (default "PREPRINT" text) w)
    as (w1 & evs & Hw1 & _ & _ & _ & _ & Hcase).
  destruct (failure _ _ _ w) as [[st e] |].
  { destruct Hcase as (Hraise & _). rewrite Hraise in Hrun.
    by destruct (refusal w _). }
  destruct Hcase as (data & ps & o & os & ps' & Hd & Hp & Ho & Hs & _ & _
                     & Hfs & _).
  destruct (try_after_merges _ output_pdf _ w data ps ps' o Hd Hp Ho Hs)
    as (os' & Htry).
  match type of Htry with
  | _ = ?k ?v =>
      pose proof (output_steps_clock output_pdf _ _ v : clock (k v).2 = clock v)
        as Hclock
  end.
  rewrite <- Htry in Hclock. simpl in Hclock.
  destruct (add_watermark_try _ _ _ w) as [[success | e] v]; simpl in *.
  2:{ by destruct (refusal w _). }
  injection Hrun as -> ->. subst w1.
  exists data, ps, ps', o. done.
Qed.

(** X10. Nothing detects an earlier watermark.  If a first run
    succeeded and its output reads back as the pages it wrote, a second
    run on that output merges a watermark generated anew into every page
    once more. *)
Theorem watermark_twice
    (first second third : string) (text : option string) (w w1 w2 : World)
    (data : bytes) (ps ps' : list page) (o : page) :
  fs w !! first = Some data → pdf_parse data = Ok ps →
  watermark_object (clock w) (default "PREPRINT" text) 45 (3 # 10) = Ok o →
  stamp_all o ps = Ok ps' →
  pdf_parse (pdf_write ps').1 = Ok ps' →
  add_watermark first second text w = (Ok true, w1) →
  add_watermark second third text w1 = (Ok true, w2) →
  ∃ (o2 : page) (ps'' : list page),
    watermark_object (S (clock w)) (default "PREPRINT" text) 45 (3 # 10) = Ok o2 ∧
    Forall2 (λ p' p'', pdf_merge p' o2 = Ok p'') ps' ps'' ∧
    length ps'' = length ps ∧
    fs w2 !! third = Some (pdf_write ps'').1.
Proof.
  intros Hdata Hps Hobj Hstamp Hback Hrun1 Hrun2.
  apply returned_true in Hrun1
    as (d1 & q1 & q1' & o1 & Hd1 & Hp1 & Ho1 & Hs1 & Hfs1 & Hclock1).
  rewrite Hdata in Hd1. injection Hd1 as <-.
  rewrite Hps in Hp1. injection Hp1 as <-.
  rewrite Hobj in Ho1. injection Ho1 as <-.
  rewrite Hstamp in Hs1. injection Hs1 as <-.
  apply returned_true in Hrun2
    as (d2 & q2 & q2' & o2 & Hd2 & Hp2 & Ho2 & Hs2 & Hfs2 & _).
  rewrite Hfs1, lookup_insert_eq in Hd2. injection Hd2 as <-.
  rewrite Hback in Hp2. injection Hp2 as <-.
  rewrite Hclock1 in Ho2.
  exists o2, q2'. split; [done |]. split; [by apply stamp_all_Forall2 |]. split.
  - apply stamp_all_length in Hs2, Hstamp. congruence.
  - rewrite Hfs2. apply lookup_insert_eq.
Qed.

(** ** The watermark generator *)

(** X11. [create_watermark] works in memory only: whether it returns or
    raises, no file, refusal or printed line changes, the one call logged
    is its own, the page objects that existed are untouched, and the
    pages of the reader it returns are new objects. *)
Theorem create_watermark_in_memory
    (text : option string) (angle opacity : option Q) (w : World) :
  let r := create_watermark text angle opacity w in
  fs r.2 = fs w ∧ denied r.2 = denied w ∧ stdout r.2 = stdout w ∧
  log r.2 = log w ++ [EGenerate (default "PREPRINT" text) (default 45%Q angle)
                                (default (3 # 10)%Q opacity)] ∧
  heap w `prefix_of` heap r.2 ∧
  ∀ rd : PdfReaderObj,
    r.1 = Ok rd →
    Forall (λ p, length (heap w) ≤ p < length (heap r.2))%nat (pages rd).
Proof.
  cbv zeta. rewrite create_watermark_run.
  destruct (watermark_document _ _ _) as [doc | e].
  2:{ repeat split; try done. }
  destruct (canvas_save _ _) as [packet | e].
  2:{ repeat split; try done. }
  destruct (pdf_parse packet) as [os | e].
  2:{ destruct (pdf_deferred packet); repeat split; try done.
      intros rd [= <-]. constructor. }
  simpl. repeat split; try done.
  - by apply prefix_app_r.
  - intros rd [= <-]. simpl. apply Forall_forall. intros p Hp.
    apply elem_of_seq in Hp. rewrite length_app. lia.
Qed.

(** ** The import block *)

Lemma from_import_true (env : gset (string * string)) (modname : string)
    (names : list string) :
  from_import env modname names = true ↔
  ∀ name, name ∈ names → (modname, name) ∈ env.
Proof.
  unfold from_import. rewrite forallb_forall. split.
  - intros Hall name Hname. apply list_elem_of_In in Hname.
    eapply bool_decide_eq_true_1. by apply Hall.
  - intros Hall name Hname. apply bool_decide_eq_true_2, Hall.
    by apply list_elem_of_In.
Qed.

Lemma try_suite_true (env : gset (string * string)) (lib : string) :
  try_suite env lib = true ↔
  from_import env lib ["PdfReader"; "PdfWriter"] = true ∧
  ∀ modname names name,
    (modname, names) ∈ shared_imports → name ∈ names → (modname, name) ∈ env.
Proof.
  unfold try_suite, import_suite. cbn [forallb]. rewrite andb_true_iff.
  apply and_iff_compat_l. rewrite forallb_forall. split.
  - intros Hall modname names name Hstmt Hname.
    apply list_elem_of_In, Hall in Hstmt.
    by eapply from_import_true in Hstmt.
  - intros Hall [modname names] Hstmt. apply from_import_true.
    intros name Hname. eapply Hall; [| done]. by apply list_elem_of_In.
Qed.

Lemma import_block_is_Some (env : gset (string * string)) :
  is_Some (import_block env) ↔
  (∀ modname names name,
      (modname, names) ∈ shared_imports → name ∈ names → (modname, name) ∈ env) ∧
  ((("PyPDF2", "PdfReader") ∈ env ∧ ("PyPDF2", "PdfWriter") ∈ env) ∨
   (("pypdf", "PdfReader") ∈ env ∧ ("pypdf", "PdfWriter") ∈ env)).
Proof.
  assert (∀ lib, from_import env lib ["PdfReader"; "PdfWriter"] = true ↔
                 (lib, "PdfReader") ∈ env ∧ (lib, "PdfWriter") ∈ env) as Hlib.
  { intros lib. rewrite from_import_true. split.
    - intros Hall. split; apply Hall; set_solver.
    - intros [Hr Hw] name Hname.
      apply list_elem_of_In in Hname. simpl in Hname.
      destruct Hname as [<- | [<- | []]]; done. }
  unfold import_block.
  destruct (try_suite env "PyPDF2") eqn:H1.
  { apply try_suite_true in H1 as [Hpdf Hshared]. apply Hlib in Hpdf.
    split; [intros _; by auto | by eauto]. }
  destruct (try_suite env "pypdf") eqn:H2.
  { apply try_suite_true in H2 as [Hpdf Hshared]. apply Hlib in Hpdf.
    split; [intros _; by auto | by eauto]. }
  split; [by intros [? ?] |].
  intros [Hshared [Hpdf | Hpdf]]; apply Hlib in Hpdf.
  - assert (try_suite env "PyPDF2" = true) by (by apply try_suite_true).
    congruence.
  - assert (try_suite env "pypdf" = true) by (by apply try_suite_true).
    congruence.
Qed.

(** X13. The imports succeed exactly when every name of the shared
    imports can be found, those the script never uses ([letter],
    [ImageReader]) included, and [PdfReader] and [PdfWriter] can both be
    found in PyPDF2 or both in pypdf. *)
Theorem import_block_succeeds_iff (env : gset (string * string)) :
  is_Some (import_block env) ↔
  (∀ modname names name,
      (modname, names) ∈ shared_imports → name ∈ names → (modname, name) ∈ env) ∧
  ((("PyPDF2", "PdfReader") ∈ env ∧ ("PyPDF2", "PdfWriter") ∈ env) ∨
   (("pypdf", "PdfReader") ∈ env ∧ ("pypdf", "PdfWriter") ∈ env)).
Proof. apply import_block_is_Some. Qed.

(** X14. pypdf is only a fallback: when the import block binds the
    names to pypdf, PyPDF2 lacks [PdfReader] or [PdfWriter]. *)
Theorem pypdf_only_as_fallback (env : gset (string * string)) :
  import_block env = Some pypdf →
  ¬ (("PyPDF2", "PdfReader") ∈ env ∧ ("PyPDF2", "PdfWriter") ∈ env).
Proof.
  unfold import_block.
  destruct (try_suite env "PyPDF2") eqn:H1; [done |].
  destruct (try_suite env "pypdf") eqn:H2; [| done].
  intros _ [Hr Hw].
  apply try_suite_true in H2 as [_ Hshared].
  assert (try_suite env "PyPDF2" = true); [| congruence].
  apply try_suite_true. split; [| done].
  apply from_import_true. intros name Hname.
  apply list_elem_of_In in Hname. simpl in Hname.
  destruct Hname as [<- | [<- | []]]; done.
Qed.


(** ** Errors that show late *)

(** X16. When the input's error shows only as its pages are asked for,
    the generator has been called by then: the watermark is generated
    before the input is found unreadable, no merge is made, no file is
    changed, and, the generator having succeeded, the error reported is
    the input's. *)
Theorem late_input_error_after_generation
    (input_pdf output_pdf : string) (text : option string) (w : World)
    (data : bytes) (e : exn) :
  fs w !! input_pdf = Some data →
  pdf_parse data = Raise e → pdf_deferred data = true →
  ∃ (r : result bool) (w' : World),
    add_watermark input_pdf output_pdf text w = (r, w') ∧
    r ≠ Ok true ∧
    fs w' = fs w ∧
    log w' = log w ++ [EOpenRead input_pdf;
                       EGenerate (default "PREPRINT" text) 45 (3 # 10)] ∧
    ∀ o : page,
      watermark_object (clock w) (default "PREPRINT" text) 45 (3 # 10) = Ok o →
      accepts w ("❌ Error processing " +:+ input_pdf +:+ ": " +:+ e) →
      r = Ok false ∧
      stdout w' = stdout w ++ ["❌ Error processing " +:+ input_pdf +:+ ": " +:+ e].
Proof.
  intros Hdata Hps Hlate.
  set (t := default "PREPRINT" text).
  assert (∃ e' w1, add_watermark_try input_pdf output_pdf t w = (Raise e', w1) ∧
                   fs w1 = fs w ∧ stdout w1 = stdout w ∧
                   log w1 = log w ++ [EOpenRead input_pdf; EGenerate t 45 (3 # 10)] ∧
                   ∀ o, watermark_object (clock w) t 45 (3 # 10) = Ok o → e' = e)
    as (e' & w1 & Hraise & Hfs1 & Hout1 & Hlog1 & Hsame).
  { pose (K := λ (reader : PdfReaderObj) (watermark_page : ref),
            get_pages reader ≫= λ todo,
            merge_loop watermark_page todo PdfWriter ≫= λ writer,
            open_wb output_pdf ≫= λ _,
            write writer output_pdf ≫= λ _,
            print ("✅ Successfully added watermark to " +:+ output_pdf) ≫= λ _,
            (ret true : M bool)).
    change (add_watermark_try input_pdf output_pdf t)
      with (PdfReader (Path input_pdf) ≫= λ reader,
            create_watermark (Some t) None None ≫= λ watermark,
            get_pages watermark ≫= λ watermark_pages,
            getitem watermark_pages 0 ≫= K reader).
    unfold mbind at 1, M_bind at 1, bind at 1.
    rewrite PdfReader_path, Hdata, Hps, Hlate.
    set (w1 := record (EOpenRead input_pdf) w).
    pose proof (watermark_phase t (K (mkReader [] (Some e))) w1) as Hphase.
    cbv zeta in Hphase. change (clock w1) with (clock w) in Hphase.
    destruct (watermark_object (clock w) t 45 (3 # 10)) as [o | e'].
    - destruct Hphase as (os & ->). exists e. eexists.
      split; [reflexivity |]. simpl. rewrite <- app_assoc. done.
    - destruct Hphase as (w' & -> & Hfs & _ & _ & Hout & _ & Hlog).
      exists e', w'. split; [done |].
      rewrite Hfs, Hout, Hlog. subst w1. simpl. by rewrite <- app_assoc. }
  destruct (handler_outcome _ _ _ _ _ _ Hraise)
    as (r & w' & Hrun & Hr & Hfs & _ & Hlog & Hline).
  exists r, w'. rewrite Hfs, Hfs1, Hlog, Hlog1.
  split; [done |]. split; [done |]. split; [done |]. split; [done |].
  intros o Ho Hacc. rewrite (Hsame o Ho) in Hline.
  rewrite <- Hout1. by apply Hline.
Qed.

(** X17. When every step succeeds but standard output cannot encode
    the confirmation line, the output file is written all the same, and
    the program exits with status 1: the encoding error is taken for a
    processing error, and what is printed, if anything, is the error
    line naming the input. *)
Theorem unprintable_confirmation
    (argv : list string) (input_pdf output_pdf : string) (w : World) (e : exn) :
  argv !! 1%nat = Some input_pdf → argv !! 2%nat = Some output_pdf →
  failure input_pdf output_pdf "PREPRINT" w = None →
  refusal w ("✅ Successfully added watermark to " +:+ output_pdf) = Some e →
  ∃ (w' : World) (ps' : list page),
    main argv w = (1%Z, w') ∧
    fs w' = <[output_pdf := (pdf_write ps').1]> (fs w) ∧
    (stdout w' = stdout w ∨
     stdout w' = stdout w ++ ["❌ Error processing " +:+ input_pdf +:+ ": " +:+ e]).
Proof.
  intros H1 H2 Hok Href.
  destruct (argv_positional argv input_pdf output_pdf H1 H2) as (Hlen & Hin & Hout).
  destruct (try_spec input_pdf output_pdf "PREPRINT" (record (EExists input_pdf) w))
    as (w1 & evs & Hw1 & _ & _ & _ & _ & Hcase).
  rewrite failure_record, Hok in Hcase.
  destruct Hcase as (data & ps & o & os & ps' & Hd & _ & _ & _ & _ & _
                     & Hfs & _ & _ & Hres & Hstdout).
  change (refusal (record (EExists input_pdf) w)) with (refusal w) in *.
  rewrite Href in Hres, Hstdout. rewrite app_nil_r in Hstdout.
  unfold main. rewrite Hlen, Hin, Hout. unfold os_path_exists.
  simpl in Hd. rewrite bool_decide_eq_true_2 by (by rewrite Hd).
  rewrite add_watermark_handler. cbv zeta.
  change (default "PREPRINT" None) with "PREPRINT". rewrite Hres, Hw1.
  change (refusal (record (EExists input_pdf) w)) with (refusal w).
  destruct (refusal w ("❌ Error processing " +:+ _)); eexists _, ps';
    (split; [reflexivity |]); simpl; rewrite Hstdout; auto.
Qed.
End Properties.

(** * The claims on concrete runs *)

(** The demo backend, on a world with a three-page [in.pdf], an empty
    [empty.pdf], a [late.pdf] whose error shows late and an output path
    that cannot be opened. *)
Section Runs.
#[local] Existing Instance demo.backend.

Example scenario_three_pages :
  let '(status, w') := main ["add_watermark.py"; "in.pdf"; "out.pdf"] demo.world in
  status = 0%Z ∧
  stdout w' = ["✅ Successfully added watermark to out.pdf"] ∧
  (pdf_parse <$> fs w' !! "out.pdf")
  = Some (Ok [[Byte.x61; Byte.x57]; [Byte.x62; Byte.x57]; [Byte.x63; Byte.x57]]) ∧
  log w' = [EExists "in.pdf"; EOpenRead "in.pdf"; EGenerate "PREPRINT" 45 (3 # 10);
            EMerge 0 3; EMerge 1 3; EMerge 2 3;
            EOpenWrite "out.pdf"; ESerialize "out.pdf"].
Proof. vm_compute. done. Qed.

Example scenario_failed_merge :
  let '(status, w') := main ["add_watermark.py"; "bad.pdf"; "in.pdf"] demo.world in
  status = 1%Z ∧
  stdout w' = ["❌ Error processing bad.pdf: cannot merge into this page"] ∧
  fs w' = fs demo.world ∧
  log w' = [EExists "bad.pdf"; EOpenRead "bad.pdf"; EGenerate "PREPRINT" 45 (3 # 10);
            EMerge 0 2; EMerge 1 2].
Proof. vm_compute. done. Qed.

Example scenario_locked_output :
  let '(status, w') := main ["add_watermark.py"; "in.pdf"; "/locked.pdf"] demo.world in
  status = 1%Z ∧
  stdout w' = ["❌ Error processing in.pdf: [Errno 13] Permission denied: '/locked.pdf'"] ∧
  fs w' = fs demo.world.
Proof. vm_compute. done. Qed.

Example scenario_corrupt_input :
  let '(status, w') := main ["add_watermark.py"; "empty.pdf"; "out.pdf"] demo.world in
  status = 1%Z ∧
  stdout w' = ["❌ Error processing empty.pdf: Cannot read an empty file"] ∧
  fs w' !! "out.pdf" = None ∧
  log w' = [EExists "empty.pdf"; EOpenRead "empty.pdf"].
Proof. vm_compute. done. Qed.

Example scenario_late_error :
  let '(status, w') := main ["add_watermark.py"; "late.pdf"; "out.pdf"] demo.world in
  status = 1%Z ∧
  stdout w' = ["❌ Error processing late.pdf: Could not read the page tree"] ∧
  fs w' !! "out.pdf" = None ∧
  log w' = [EExists "late.pdf"; EOpenRead "late.pdf"; EGenerate "PREPRINT" 45 (3 # 10)].
Proof. vm_compute. done. Qed.

Example scenario_ascii_terminal :
  let '(status, w') :=
    main ["add_watermark.py"; "in.pdf"; "out.pdf"] demo.ascii_world in
  status = 1%Z ∧ stdout w' = [] ∧
  (pdf_parse <$> fs w' !! "out.pdf")
  = Some (Ok [[Byte.x61; Byte.x57]; [Byte.x62; Byte.x57]; [Byte.x63; Byte.x57]]).
Proof. vm_compute. done. Qed.

Example scenario_saved_bytes_differ :
  ∃ doc : list cpage,
    watermark_document "PREPRINT" 45 (3 # 10) = Ok doc ∧
    canvas_save 0 doc = Ok [Byte.x57; demo.LF] ∧
    canvas_save 1 doc = Ok [Byte.x57; demo.LF; Byte.x20].
Proof. eexists. split; [reflexivity |]. done. Qed.

Example scenario_opacity_out_of_range :
  (create_watermark None None (Some (13 # 10)%Q) demo.world).1
  = Raise "setFillAlpha invalid value".
Proof. vm_compute. done. Qed.

Lemma add_watermark_preserves_pages_witness :
  let w' := (add_watermark "in.pdf" "out.pdf" None demo.world).2 in
  add_watermark "in.pdf" "out.pdf" None demo.world = (Ok true, w') ∧
  ∃ (data : bytes) (ps : list page) (o : page) (ps' : list page),
    fs demo.world !! "in.pdf" = Some data ∧ pdf_parse data = Ok ps ∧
    watermark_object (clock demo.world) "PREPRINT" 45 (3 # 10) = Ok o ∧
    Forall2 (λ p p', pdf_merge p o = Ok p') ps ps' ∧
    length ps' = length ps ∧
    (pdf_write ps').2 = None ∧
    fs w' !! "out.pdf" = Some (pdf_write ps').1.
Proof.
  intros w'.
  assert (add_watermark "in.pdf" "out.pdf" None demo.world = (Ok true, w')) as Hrun
    by (vm_compute; reflexivity).
  split; [exact Hrun |].
  exact (add_watermark_preserves_pages "in.pdf" "out.pdf" None demo.world w' Hrun).
Defined.



Lemma watermark_generated_once_witness :
  let w' := (add_watermark "in.pdf" "out.pdf" None demo.world).2 in
  ∃ evs : list event,
    log w' = log demo.world ++ evs ∧
    filter is_generate evs = [EGenerate "PREPRINT" 45 (3 # 10)] ∧
    Forall (λ ev, ∀ o', overlay_of ev = Some o' → o' = 3%nat) evs ∧
    (@Ok bool true = Ok true →
     ∃ (o : page) (ps' : list page),
       watermark_object (clock demo.world) "PREPRINT" 45 (3 # 10) = Ok o ∧
       omap overlay_of evs = replicate 3 3%nat ∧
       heap w' !! 3%nat = Some o ∧
       Forall2 (λ p p', pdf_merge p o = Ok p')
               [[Byte.x61]; [Byte.x62]; [Byte.x63]] ps' ∧
       fs w' !! "out.pdf" = Some (pdf_write ps').1).
Proof.
  intros w'.
  apply (watermark_generated_once "in.pdf" "out.pdf" None demo.world w'
           [Byte.x61; demo.LF; Byte.x62; demo.LF; Byte.x63; demo.LF]
           [[Byte.x61]; [Byte.x62]; [Byte.x63]] (Ok true)).
  - vm_compute; reflexivity.
  - reflexivity.
  - vm_compute; reflexivity.
Defined.









Lemma early_failure_leaves_output_witness :
  failure "bad.pdf" "in.pdf" "PREPRINT" demo.world
  = Some (Merge, "cannot merge into this page") ∧
  ∃ (r : result bool) (w' : World) (evs : list event),
    add_watermark "bad.pdf" "in.pdf" None demo.world = (r, w') ∧
    r ≠ Ok true ∧
    (accepts demo.world "❌ Error processing bad.pdf: cannot merge into this page" →
     r = Ok false) ∧
    log w' = log demo.world ++ evs ∧
    Forall (λ ev, is_open_write ev = false) evs ∧
    fs w' = fs demo.world.
Proof.
  assert (failure "bad.pdf" "in.pdf" "PREPRINT" demo.world
          = Some (Merge, "cannot merge into this page")) as Hfail
    by (vm_compute; reflexivity).
  split; [exact Hfail |].
  apply (early_failure_leaves_output "bad.pdf" "in.pdf" None demo.world
           Merge "cannot merge into this page" Hfail).
  discriminate.
Defined.

Lemma unreadable_input_stops_witness :
  let line := "❌ Error processing empty.pdf: Cannot read an empty file" in
  ∃ (r : result bool) (w' : World),
    add_watermark "empty.pdf" "out.pdf" None demo.world = (r, w') ∧
    r ≠ Ok true ∧
    fs w' = fs demo.world ∧ heap w' = heap demo.world ∧
    log w' = log demo.world ++ [EOpenRead "empty.pdf"] ∧
    (accepts demo.world line →
     r = Ok false ∧ stdout w' = stdout demo.world ++ [line]).
Proof.
  intros line.
  apply (unreadable_input_stops "empty.pdf" "out.pdf" None demo.world
           "Cannot read an empty file").
  vm_compute; reflexivity.
Defined.

Lemma refused_output_changes_nothing_witness :
  let line :=
    "❌ Error processing in.pdf: [Errno 13] Permission denied: '/locked.pdf'" in
  ∃ (r : result bool) (w' : World),
    add_watermark "in.pdf" "/locked.pdf" None demo.world = (r, w') ∧
    r ≠ Ok true ∧
    fs w' = fs demo.world ∧
    (accepts demo.world line →
     r = Ok false ∧ stdout w' = stdout demo.world ++ [line]).
Proof.
  intros line.
  apply (refused_output_changes_nothing "in.pdf" "/locked.pdf" None demo.world
           [Byte.x61; demo.LF; Byte.x62; demo.LF; Byte.x63; demo.LF]
           [[Byte.x61]; [Byte.x62]; [Byte.x63]]
           [[Byte.x61; Byte.x57]; [Byte.x62; Byte.x57]; [Byte.x63; Byte.x57]]
           [Byte.x57]).
  - vm_compute; reflexivity.
  - reflexivity.
  - reflexivity.
  - reflexivity.
  - vm_compute; reflexivity.
Defined.

Lemma first_failed_merge_stops_witness :
  let line := "❌ Error processing bad.pdf: cannot merge into this page" in
  ∃ (r : result bool) (w' : World) (os : list page),
    add_watermark "bad.pdf" "out.pdf" None demo.world = (r, w') ∧
    r ≠ Ok true ∧
    fs w' = fs demo.world ∧
    (accepts demo.world line →
     r = Ok false ∧ stdout w' = stdout demo.world ++ [line]) ∧
    log w' = log demo.world
             ++ [EOpenRead "bad.pdf"; EGenerate "PREPRINT" 45 (3 # 10)]
             ++ map (λ r, EMerge r 2%nat) (seq 0 2) ∧
    heap w' = heap demo.world
              ++ [[Byte.x61; Byte.x57]] ++ [Byte.x21] :: [] ++ [Byte.x57] :: os.
Proof.
  intros line.
  apply (first_failed_merge_stops "bad.pdf" "out.pdf" None demo.world
           [Byte.x61; demo.LF; Byte.x21; demo.LF]
           [[Byte.x61]] [[Byte.x61; Byte.x57]] [] [Byte.x21] [Byte.x57]
           "cannot merge into this page").
  - vm_compute; reflexivity.
  - reflexivity.
  - reflexivity.
  - reflexivity.
  - reflexivity.
Defined.

Lemma empty_document_is_written_witness :
  ∃ (r : result bool) (w' : World),
    add_watermark "blank.pdf" "out.pdf" None demo.world_blank = (r, w') ∧
    (accepts demo.world_blank "✅ Successfully added watermark to out.pdf" →
     r = Ok true) ∧
    fs w' = <["out.pdf" := []]> (fs demo.world_blank) ∧
    log w' = log demo.world_blank
             ++ [EOpenRead "blank.pdf"; EGenerate "PREPRINT" 45 (3 # 10);
                 EOpenWrite "out.pdf"; ESerialize "out.pdf"].
Proof.
  apply (empty_document_is_written "blank.pdf" "out.pdf" None demo.world_blank
           [Byte.x20] [Byte.x57]).
  - vm_compute; reflexivity.
  - reflexivity.
  - reflexivity.
  - vm_compute; reflexivity.
  - reflexivity.
Defined.

Lemma watermark_twice_witness :
  let w1 := (add_watermark "in.pdf" "out.pdf" None demo.world).2 in
  let w2 := (add_watermark "out.pdf" "twice.pdf" None w1).2 in
  ∃ (o2 : page) (ps'' : list page),
    watermark_object (S (clock demo.world)) "PREPRINT" 45 (3 # 10) = Ok o2 ∧
    Forall2 (λ p' p'', pdf_merge p' o2 = Ok p'')
            [[Byte.x61; Byte.x57]; [Byte.x62; Byte.x57]; [Byte.x63; Byte.x57]] ps'' ∧
    length ps'' = 3%nat ∧
    fs w2 !! "twice.pdf" = Some (pdf_write ps'').1.
Proof.
  intros w1 w2.
  apply (watermark_twice "in.pdf" "out.pdf" "twice.pdf" None demo.world w1 w2
           [Byte.x61; demo.LF; Byte.x62; demo.LF; Byte.x63; demo.LF]
           [[Byte.x61]; [Byte.x62]; [Byte.x63]]
           [[Byte.x61; Byte.x57]; [Byte.x62; Byte.x57]; [Byte.x63; Byte.x57]]
           [Byte.x57]).
  - vm_compute; reflexivity.
  - reflexivity.
  - reflexivity.
  - reflexivity.
  - reflexivity.
  - vm_compute; reflexivity.
  - vm_compute; reflexivity.
Defined.

Lemma late_input_error_after_generation_witness :
  let line := "❌ Error processing late.pdf: Could not read the page tree" in
  ∃ (r : result bool) (w' : World),
    add_watermark "late.pdf" "out.pdf" None demo.world = (r, w') ∧
    r ≠ Ok true ∧
    fs w' = fs demo.world ∧
    log w' = log demo.world
             ++ [EOpenRead "late.pdf"; EGenerate "PREPRINT" 45 (3 # 10)] ∧
    ∀ o : page,
      watermark_object (clock demo.world) "PREPRINT" 45 (3 # 10) = Ok o →
      accepts demo.world line →
      r = Ok false ∧ stdout w' = stdout demo.world ++ [line].
Proof.
  intros line.
  apply (late_input_error_after_generation "late.pdf" "out.pdf" None demo.world
           [Byte.x3f; demo.LF] "Could not read the page tree").
  - vm_compute; reflexivity.
  - reflexivity.
  - reflexivity.
Defined.

Lemma unprintable_confirmation_witness :
  ∃ (w' : World) (ps' : list page),
    main ["add_watermark.py"; "in.pdf"; "out.pdf"] demo.ascii_world = (1%Z, w') ∧
    fs w' = <["out.pdf" := (pdf_write ps').1]> (fs demo.ascii_world) ∧
    (stdout w' = stdout demo.ascii_world ∨
     stdout w' = stdout demo.ascii_world
                 ++ ["❌ Error processing in.pdf: "
                     +:+ demo.codec_error]).
Proof.
  apply (unprintable_confirmation ["add_watermark.py"; "in.pdf"; "out.pdf"]
           "in.pdf" "out.pdf" demo.ascii_world demo.codec_error).
  - reflexivity.
  - reflexivity.
  - vm_compute; reflexivity.
  - reflexivity.
Defined.

Lemma pypdf_only_as_fallback_witness :
  import_block demo.pypdf_env = Some pypdf ∧
  ¬ (("PyPDF2", "PdfReader") ∈ demo.pypdf_env ∧
     ("PyPDF2", "PdfWriter") ∈ demo.pypdf_env).
Proof.
  assert (import_block demo.pypdf_env = Some pypdf) as Himport
    by (vm_compute; reflexivity).
  split; [exact Himport |].
  exact (pypdf_only_as_fallback demo.pypdf_env Himport).
Defined.


End Runs.

(** The library whose writer stops early. *)
Section InterruptedRuns.
#[local] Existing Instance demo.flaky.

Example scenario_disk_full :
  let '(status, w') := main ["add_watermark.py"; "in.pdf"; "in.pdf"] demo.flaky_world in
  status = 1%Z ∧
  stdout w' = ["❌ Error processing in.pdf: [Errno 28] No space left on device"] ∧
  fs w' !! "in.pdf" = Some [Byte.x61; Byte.x57].
Proof. vm_compute. done. Qed.

Lemma interrupted_write_leaves_partial_output_witness :
  let line := "❌ Error processing in.pdf: [Errno 28] No space left on device" in
  ∃ (r : result bool) (w' : World),
    add_watermark "in.pdf" "in.pdf" None demo.flaky_world = (r, w') ∧
    r ≠ Ok true ∧
    fs w' = <["in.pdf" := [Byte.x61; Byte.x57]]> (fs demo.flaky_world) ∧
    (accepts demo.flaky_world line →
     r = Ok false ∧ stdout w' = stdout demo.flaky_world ++ [line]).
Proof.
  intros line.
  apply (interrupted_write_leaves_partial_output "in.pdf" "in.pdf" None
           demo.flaky_world
           [Byte.x61; demo.LF; Byte.x62; demo.LF; Byte.x63; demo.LF]
           [Byte.x61; Byte.x57]
           [[Byte.x61]; [Byte.x62]; [Byte.x63]]
           [[Byte.x61; Byte.x57]; [Byte.x62; Byte.x57]; [Byte.x63; Byte.x57]]
           [Byte.x57] "[Errno 28] No space left on device").
  - vm_compute; reflexivity.
  - reflexivity.
  - reflexivity.
  - reflexivity.
  - vm_compute; reflexivity.
  - reflexivity.
Defined.

End InterruptedRuns.
